(** * The tag-state engine of the RTLS warning server

    A shallow embedding of [geometricFunctions.py], [dataProcessing.py],
    [lightsController_gpioserver.py], [lightsController_gpiozero.py],
    [awacs_server.py] and the GPIO server [gpio_control.py], and the
    properties of the update engine, the vector engine, the zone light
    controllers and the scheduler that follow from the code.

    Python floats are IEEE 754 binary64 numbers: they are modelled by Rocq's
    primitive floats, so that the arithmetic of the source ([+], [-], [*],
    [/], [sqrt], the comparisons, [round], [%]) evaluates to the values the
    interpreter computes.  The C library's [atan2] is a parameter away from
    the axes.  Python exceptions are modelled by an explicit result type,
    and the mutation of the registry by explicit state passing. *)

From Stdlib Require Import ZArith String List Bool Lia.
From Stdlib Require Import Floats.PrimFloat Floats.FloatOps Floats.SpecFloat.
From Stdlib Require Import Floats.FloatAxioms.
Import ListNotations.

Set Warnings "-inexact-float".
Local Open Scope Z_scope.

(* ===================================================================== *)
(** * Exceptions and results *)
(* ===================================================================== *)

(** The exception classes the modelled code can raise. *)
Inductive exn : Type :=
| TypeError
| ValueError
| KeyError
| OverflowError
| AttributeError
| OSError.

(** The outcome of a call: a value, or a raised exception. *)
Inductive result (A : Type) : Type :=
| Ok (a : A)
| Raise (e : exn).
Arguments Ok {A} a.
Arguments Raise {A} e.

Definition bind {A B : Type} (r : result A) (k : A -> result B) : result B :=
  match r with
  | Ok a => k a
  | Raise e => Raise e
  end.

Notation "x <- r ;; k" := (bind r (fun x => k))
  (at level 61, r at next level, right associativity).

(** A field of a decoded JSON record as the code reads it: the key may be
    absent, its text may be rejected by the conversion the code applies
    ([int], [datetime.strptime]), or the conversion yields a value. *)
Inductive Field (A : Type) : Type :=
| Absent
| Malformed
| Value (a : A).
Arguments Absent {A}.
Arguments Malformed {A}.
Arguments Value {A} a.

(* ===================================================================== *)
(** * Python's float operations *)
(* ===================================================================== *)

Module PyFloat.

Local Open Scope float_scope.

(** [n / d] rounded to the nearest integer, ties to the even one
    ([d] positive). *)
Definition round_half_even (n d : Z) : Z :=
  let q := (n / d)%Z in
  let r := (n mod d)%Z in
  match (2 * r ?= d)%Z with
  | Lt => q
  | Gt => (q + 1)%Z
  | Eq => if Z.even q then q else (q + 1)%Z
  end.

(** [bool(x)] of a float: zero (of either sign) is false, NaN is true. *)
Definition truthy (x : float) : bool := negb (x =? 0).

(** [round(x)]: the nearest integer, ties to even, as an [int]; NaN and
    the infinities have no integer. *)
Definition round (x : float) : result Z :=
  match Prim2SF x with
  | S754_nan => Raise ValueError
  | S754_infinity _ => Raise OverflowError
  | S754_zero _ => Ok 0%Z
  | S754_finite s m e =>
      let n := if s then Z.neg m else Z.pos m in
      Ok (match e with
          | Z.neg p => round_half_even n (Z.pow_pos 2 p)
          | _ => (n * 2 ^ e)%Z
          end)
  end.

(** [round(x, 1)]: the float nearest to the decimal with one fractional
    digit nearest to [x] (ties to the even digit); the sign of [x] is
    kept, NaN and the infinities round to themselves. *)
Definition round1 (x : float) : float :=
  match Prim2SF x with
  | S754_finite s m e =>
      let k := match e with
               | Z.neg p => round_half_even (Z.pos m * 10) (Z.pow_pos 2 p)
               | _ => (Z.pos m * 10 * 2 ^ e)%Z
               end in
      match k with
      | Z.pos k' =>
          SF2Prim (SFdiv prec emax (S754_finite s k' 0) (S754_finite false 10 0))
      | _ => if s then neg_zero else zero
      end
  | _ => x
  end.

(** The C library's [fmod(x, 360.0)]: the remainder of the truncated
    division, which is a float (no rounding), with the sign of [x]. *)
Definition fmod360 (x : float) : float :=
  match Prim2SF x with
  | S754_finite s m e =>
      let r := match e with
               | Z.neg p => (Z.pos m mod (360 * Z.pow_pos 2 p))%Z
               | _ => ((Z.pos m * 2 ^ e) mod 360)%Z
               end in
      let e' := match e with Z.neg _ => e | _ => 0%Z end in
      SF2Prim (binary_normalize prec emax (if s then (- r)%Z else r) e' s)
  | S754_zero _ => x
  | _ => nan
  end.

(** [x % 360] on floats: [fmod] moved into the range of the divisor; a
    remainder just below zero rounds to 360.0 when 360 is added. *)
Definition mod360 (x : float) : float :=
  let m := fmod360 x in
  if m =? 0 then zero
  else if m <? 0 then m + 360 else m.

(** [math.sqrt]: a negative argument is a domain error. *)
Definition math_sqrt (x : float) : result float :=
  if x <? 0 then Raise ValueError else Ok (sqrt x).

(** [math.pi] and [math.degrees]. *)
Definition pi : float := 0x1.921fb54442d18p+1.
Definition degrees (x : float) : float := x * (180 / pi).

Definition copysign (a y : float) : float :=
  if get_sign y then - (abs a) else abs a.

(** Whether the square of [x] is a float: the product [x * x] rounds
    nothing away. *)
Definition square_exact (x : float) : bool :=
  match Prim2SF x, Prim2SF (x * x) with
  | S754_finite _ m e, S754_finite _ m' e' =>
      let c := Z.min (2 * e) e' in
      (Z.pos m * Z.pos m * 2 ^ (2 * e - c) =? Z.pos m' * 2 ^ (e' - c))%Z
  | S754_finite _ _ _, _ => false
  | _, _ => true
  end.

(** The two functions of the C library the interpreter calls, where their
    value is the platform's: [atan2] away from the axes, and [pow] where
    the power is not a float. *)
Record Libm : Type := {
  c_atan2 : float -> float -> float;
  c_pow : float -> float -> float
}.

Section Platform.

Variable libm : Libm.

(** [x ** 2]: [pow(x, 2.0)], which is the square when the square is a
    float; an infinite result for a finite [x] is an [OverflowError]. *)
Definition pow2 (x : float) : result float :=
  let y := if square_exact x then x * x else c_pow libm x 2 in
  if is_infinity y && negb (is_infinity x) then Raise OverflowError else Ok y.

(** [math.atan2 y x]: the interpreter and C99 (F.9.1.4) fix the value
    when an argument is NaN, infinite or zero. *)
Definition atan2 (y x : float) : float :=
  if is_nan x || is_nan y then nan
  else if is_infinity y then
    if is_infinity x then
      if get_sign x then copysign (0.75 * pi) y else copysign (0.25 * pi) y
    else copysign (0.5 * pi) y
  else if is_infinity x || (y =? 0) then
    if get_sign x then copysign pi y else copysign 0 y
  else if x =? 0 then copysign (0.5 * pi) y
  else c_atan2 libm y x.

End Platform.

End PyFloat.

(* ===================================================================== *)
(** * geometricFunctions.py *)
(* ===================================================================== *)

(** A coordinate is a float or [None]; a position is the tuple [(x, y)];
    a value that holds a position may itself be [None]. *)
Definition Coord : Type := option float.
Definition Position : Type := (Coord * Coord)%type.

(** A number that is an [int] or a [float]. *)
Inductive PyNum : Type :=
| PyInt (z : Z)
| PyFloat (x : float).

(** [X1, Y1 = coordinates]: unpacking [None] is a [TypeError]. *)
Definition unpack (coordinates : option Position) : result Position :=
  match coordinates with
  | Some p => Ok p
  | None => Raise TypeError
  end.

(** [a - b] on floats that may be [None]. *)
Definition py_sub (a b : option float) : result float :=
  match a, b with
  | Some x, Some y => Ok (x - y)%float
  | _, _ => Raise TypeError
  end.

Module geometricFunctions.

Import PyFloat.

Section Geometry.

Variable libm : Libm.

Definition calculate_heading (coordinates_1 coordinates_2 : option Position)
  : result Z :=
  start <- unpack coordinates_1 ;;
  end_ <- unpack coordinates_2 ;;
  dx <- py_sub (fst end_) (fst start) ;;
  dy <- py_sub (snd end_) (snd start) ;;
  let heading_rad := atan2 libm (- dy)%float dx in
  let heading_deg := degrees heading_rad in
  let heading_deg := mod360 (90 - heading_deg)%float in
  round heading_deg.

Definition calculate_angle (myCoordinates othersCoordinates : option Position)
  (myHeading : Z) : result Z :=
  _ <- unpack myCoordinates ;;
  _ <- unpack othersCoordinates ;;
  angleBetweenUs <- calculate_heading myCoordinates othersCoordinates ;;
  let relative_angle := angleBetweenUs - myHeading in
  Ok ((360 + relative_angle) mod 360).

Definition calculate_distance (coordinates_1 coordinates_2 : option Position)
  : result float :=
  p1 <- unpack coordinates_1 ;;
  p2 <- unpack coordinates_2 ;;
  dx <- py_sub (fst p2) (fst p1) ;;
  sx <- pow2 libm dx ;;
  dy <- py_sub (snd p2) (snd p1) ;;
  sy <- pow2 libm dy ;;
  s <- math_sqrt (sx + sy)%float ;;
  Ok (round1 s).

Definition calculate_speed (coordinates_1 : option Position)
  (tmsStart : option float) (coordinates_2 : option Position)
  (tmsEnd : option float) : result PyNum :=
  dx <- calculate_distance coordinates_1 coordinates_2 ;;
  dt <- py_sub tmsEnd tmsStart ;;
  if (dt <=? 0)%float then Ok (PyInt 0)
  else
    let spd_MpSec := (dx / dt)%float in
    let spd_MpHr := (spd_MpSec * 3600)%float in
    let spd_kMpHr := (spd_MpHr / 1000)%float in
    Ok (PyFloat (round1 spd_kMpHr)).

End Geometry.

End geometricFunctions.

(* ===================================================================== *)
(** * config.py *)
(* ===================================================================== *)

Module config.

Definition POS_FLUCTUATION_FILTER : float := 0.8.

Definition ZONE_PIN_MAP : list (string * Z) :=
  [("LZ1"%string, 2); ("LZ2"%string, 3); ("LZ3"%string, 14); ("LZ4"%string, 4)].

End config.

(* ===================================================================== *)
(** * dataProcessing.py *)
(* ===================================================================== *)

Module dataProcessing.

Import PyFloat geometricFunctions config.
Local Open Scope string_scope.

(** The value under [current_value] as [float(...strip())] reads it: the
    key may be absent ([KeyError]); the value may be no string (a JSON
    number, [null], a list), which has no [strip] ([AttributeError]); the
    string may be rejected by [float] ([ValueError]); or [float] yields a
    number. *)
Inductive CurrentValue : Type :=
| Missing
| NotAString
| NotANumber
| Number (v : float).

(** One data stream of a tag record: [current_value] is read through
    [float(...strip())], [at] through [datetime.strptime(...).timestamp()]
    (an empty [at] counts as absent: the code tests its truth value). *)
Record Stream : Type := {
  s_id : option string;
  current_value : CurrentValue;
  s_at : Field float
}.

(** One zone of a tag record.  The records embedded here have a [zones]
    value that is a list of objects, and zone names that are strings
    where present: on these [_extract_zone_names] raises nothing. *)
Record Zone : Type := { zone_name : option string }.

(** One tag record of the locating service's response; [tag_id] is read
    through [int(...)]. *)
Record Tag : Type := {
  tag_id : Field Z;
  alias : option string;
  datastreams : option (list Stream);
  zones : option (list Zone)
}.

Record History : Type := {
  his_pos : option Position;
  his_tms : option float
}.

Record Vector : Type := {
  d : Z;
  r : float;
  f : bool
}.

(** The object kept per tag (the key [soc], always [None], is left out). *)
Record TagState : Type := {
  aka : string;
  pos : option Position;
  tms : option float;
  his : History;
  spd : option PyNum;
  hdg : option Z;
  mvz : list string;
  liz : list string;
  bsz : list string;
  vct : list Vector
}.

(** [response.get(key, [])]. *)
Definition get_list {A : Type} (l : option (list A)) : list A :=
  match l with
  | Some l => l
  | None => []
  end.

Fixpoint _extract_pos_loop (streams : list Stream) (pos_id : string)
  : result Coord :=
  match streams with
  | [] => Ok None
  | stream :: rest =>
      match s_id stream with
      | None => Raise KeyError
      | Some i =>
          if String.eqb i pos_id then
            match current_value stream with
            | Missing => Raise KeyError
            | NotAString => Raise AttributeError
            | NotANumber => Raise ValueError
            | Number v => Ok (Some v)
            end
          else _extract_pos_loop rest pos_id
      end
  end.

Definition _extract_pos (response : Tag) (pos_id : string) : result Coord :=
  _extract_pos_loop (get_list (datastreams response)) pos_id.

Definition _extract_zone_names (response : Tag) (zone_type : string)
  : list string :=
  match zones response with
  | None => []
  | Some zs =>
      flat_map
        (fun zone =>
           match zone_name zone with
           | Some name => if String.prefix zone_type name then [name] else []
           | None => []
           end)
        zs
  end.

Definition is_pos_stream (stream : Stream) : bool :=
  match s_id stream with
  | Some i => String.eqb i "posY" || String.eqb i "posX"
  | None => false
  end.

Fixpoint _extract_tms_loop (streams : list Stream) (max_timestamp : option float)
  : option float :=
  match streams with
  | [] => max_timestamp
  | stream :: rest =>
      _extract_tms_loop rest
        (if is_pos_stream stream then
           match s_at stream with
           | Value current_timestamp =>
               match max_timestamp with
               | None => Some current_timestamp
               | Some m =>
                   if (m <? current_timestamp)%float
                   then Some current_timestamp else max_timestamp
               end
           | _ => max_timestamp
           end
         else max_timestamp)
  end.

Definition _extract_tms (response : Tag) : option float :=
  _extract_tms_loop (get_list (datastreams response)) None.

Definition createObject (id : Z) (data : Tag) : result TagState :=
  x <- _extract_pos data "posX" ;;
  y <- _extract_pos data "posY" ;;
  let pos := (x, y) in
  let tms := _extract_tms data in
  let mvz := _extract_zone_names data "M" in
  let liz := _extract_zone_names data "L" in
  let bsz := _extract_zone_names data "B" in
  match alias data with
  | None => Raise KeyError
  | Some a =>
      Ok {| aka := a; pos := Some pos; tms := tms;
            his := {| his_pos := None; his_tms := None |};
            spd := None; hdg := None;
            mvz := mvz; liz := liz; bsz := bsz; vct := [] |}
  end.

(** [bool(tms)] of a timestamp that may be [None]. *)
Definition tms_truthy (t : option float) : bool :=
  match t with
  | Some x => truthy x
  | None => false
  end.

(** [==] on coordinates and on positions (tuples compare by items). *)
Definition coord_eqb (a b : Coord) : bool :=
  match a, b with
  | Some x, Some y => (x =? y)%float
  | None, None => true
  | _, _ => false
  end.

Definition position_eqb (p q : Position) : bool :=
  coord_eqb (fst p) (fst q) && coord_eqb (snd p) (snd q).

(** The second [obj.update] of [updateObject]: zones from the record,
    vectors reset. *)
Definition update_zones (obj : TagState) (data : Tag) : TagState :=
  {| aka := aka obj; pos := pos obj; tms := tms obj; his := his obj;
     spd := spd obj; hdg := hdg obj;
     mvz := _extract_zone_names data "M";
     liz := _extract_zone_names data "L";
     bsz := _extract_zone_names data "B";
     vct := [] |}.

Section Update.

Variable libm : Libm.

(** The test of the [if] of [updateObject]: the distance is computed
    before the prior position is compared with [None]. *)
Definition moved (obj : TagState) (data : Tag) : result bool :=
  x <- _extract_pos data "posX" ;;
  y <- _extract_pos data "posY" ;;
  dist <- calculate_distance libm (Some (x, y)) (pos obj) ;;
  Ok ((POS_FLUCTUATION_FILTER <=? dist)%float
      || match pos obj with None => true | Some _ => false end).

(** The body of the [if]: the first [obj.update]. *)
Definition commit (obj : TagState) (data : Tag) : result TagState :=
  x <- _extract_pos data "posX" ;;
  y <- _extract_pos data "posY" ;;
  let pos' := (x, y) in
  let tms' := _extract_tms data in
  let his_pos := pos obj in
  let his_tms := tms obj in
  spd' <- (if tms_truthy tms' && tms_truthy his_tms
           then calculate_speed libm his_pos his_tms (Some pos') tms'
           else Ok (PyInt 0)) ;;
  hdg' <- (match his_pos with
           | Some hp =>
               if negb (position_eqb pos' hp)
               then h <- calculate_heading libm his_pos (Some pos') ;;
                    Ok (Some h)
               else Ok (hdg obj)
           | None => Ok (hdg obj)
           end) ;;
  Ok {| aka := aka obj; pos := Some pos'; tms := tms';
        his := {| his_pos := his_pos; his_tms := his_tms |};
        spd := Some spd'; hdg := hdg';
        mvz := mvz obj; liz := liz obj; bsz := bsz obj; vct := vct obj |}.

Definition updateObject (obj : TagState) (data : Tag) : result TagState :=
  m <- moved obj data ;;
  obj1 <- (if m then commit obj data else Ok obj) ;;
  Ok (update_zones obj1 data).

Definition create_vector (obj other_obj : TagState) : result Vector :=
  let my_pos := pos obj in
  let my_hdg := hdg obj in
  let other_pos := pos other_obj in
  direction <- (match my_hdg with
                | Some h =>
                    if negb (h =? 0)%Z
                    then calculate_angle libm my_pos other_pos h
                    else Ok (-1)
                | None => Ok (-1)
                end) ;;
  let contactIsFuzzy :=
    match bsz other_obj with [] => false | _ => true end in
  let direction :=
    match bsz obj, bsz other_obj with
    | _ :: _, _ :: _ => -1
    | _, _ => direction
    end in
  radius <- calculate_distance libm my_pos other_pos ;;
  Ok {| d := direction; r := radius; f := contactIsFuzzy |}.

End Update.

End dataProcessing.

(* ===================================================================== *)
(** * lightsController_gpioserver.py *)
(* ===================================================================== *)

(** The registry [obj_dict]: a dict from tag id to object, in insertion
    order. *)
Definition Registry : Type := list (Z * dataProcessing.TagState).

Module lightsController.

Import dataProcessing config.

(** What [requests.post] followed by [raise_for_status] does for one
    command: the GPIO server acknowledges it, or the call raises a
    [requests] exception, or it raises anything else. *)
Inductive PostOutcome : Type :=
| Acknowledged
| RequestException
| UnexpectedException (e : exn).

Definition GpioServer : Type := Z -> bool -> PostOutcome.

(** Only [requests.exceptions.RequestException] is caught (and printed). *)
Definition _control_light_pin (post : GpioServer) (pin : Z) (state : bool)
  : result unit :=
  match post pin state with
  | Acknowledged => Ok tt
  | RequestException => Ok tt
  | UnexpectedException e => Raise e
  end.

(** The commands sent so far, and the exception that ended the loop, if
    one did. *)
Definition Sent : Type := (list (Z * bool) * option exn)%type.

Fixpoint set_all_lights_loop (post : GpioServer) (pins : list Z) (state : bool)
  : Sent :=
  match pins with
  | [] => ([], None)
  | pin :: rest =>
      match _control_light_pin post pin state with
      | Raise e => ([(pin, state)], Some e)
      | Ok _ =>
          let (sent, e) := set_all_lights_loop post rest state in
          ((pin, state) :: sent, e)
      end
  end.

Definition set_all_lights (post : GpioServer) (state : bool) : Sent :=
  set_all_lights_loop post (map snd ZONE_PIN_MAP) state.

(** The set comprehension of [check_zones], and [zone in penetrated_zones]. *)
Definition penetrated_zones (objects : Registry) : list string :=
  flat_map (fun kv => liz (snd kv)) objects.

Definition zone_in (zone : string) (zs : list string) : bool :=
  existsb (String.eqb zone) zs.

Fixpoint check_zones_loop (post : GpioServer) (penetrated : list string)
  (items : list (string * Z)) : Sent :=
  match items with
  | [] => ([], None)
  | (zone, pin) :: rest =>
      let state := negb (zone_in zone penetrated) in
      match _control_light_pin post pin state with
      | Raise e => ([(pin, state)], Some e)
      | Ok _ =>
          let (sent, e) := check_zones_loop post penetrated rest in
          ((pin, state) :: sent, e)
      end
  end.

Definition check_zones (post : GpioServer) (objects : Registry) : Sent :=
  check_zones_loop post (penetrated_zones objects) ZONE_PIN_MAP.

End lightsController.

(* ===================================================================== *)
(** * awacs_server.py *)
(* ===================================================================== *)

Module awacs_server.

Import dataProcessing lightsController.

(** The decoded response of [GetAllTags]; [GetAllTags] itself returns
    [None] when the request fails. *)
Record Response : Type := { results : option (list Tag) }.

(** [k in obj_dict], [obj_dict[k]] and [obj_dict[k] = v]. *)
Fixpoint dict_get (k : Z) (obj_dict : Registry) : option TagState :=
  match obj_dict with
  | [] => None
  | (k', v) :: rest => if k' =? k then Some v else dict_get k rest
  end.

Fixpoint dict_set (k : Z) (v : TagState) (obj_dict : Registry) : Registry :=
  match obj_dict with
  | [] => [(k, v)]
  | (k', v') :: rest =>
      if k' =? k then (k, v) :: rest else (k', v') :: dict_set k v rest
  end.

Definition keys (obj_dict : Registry) : list Z := map fst obj_dict.

(** [int(result['id'])]. *)
Definition to_int (i : Field Z) : result Z :=
  match i with
  | Absent => Raise KeyError
  | Malformed => Raise ValueError
  | Value z => Ok z
  end.

(** A [try] body that mutates the registry: the registry it leaves, and
    the exception the [except] clause caught, if any. *)
Definition Tried : Type := (Registry * option exn)%type.

Fixpoint initialize_loop (results : list Tag) (obj_dict : Registry) : Tried :=
  match results with
  | [] => (obj_dict, None)
  | result :: rest =>
      match (result_id <- to_int (tag_id result) ;;
             obj <- createObject result_id result ;;
             Ok (result_id, obj)) with
      | Ok (result_id, obj) =>
          initialize_loop rest (dict_set result_id obj obj_dict)
      | Raise e => (obj_dict, Some e)
      end
  end.

Definition initialize_try (fetched : option Response) : Tried :=
  match fetched with
  | None => ([], Some AttributeError)
  | Some response => initialize_loop (get_list (results response)) []
  end.

Definition initialize_objects (fetched : option Response) : Registry :=
  fst (initialize_try fetched).

Definition set_vct (obj : TagState) (vectors_array : list Vector) : TagState :=
  {| aka := aka obj; pos := pos obj; tms := tms obj; his := his obj;
     spd := spd obj; hdg := hdg obj;
     mvz := mvz obj; liz := liz obj; bsz := bsz obj;
     vct := vectors_array |}.

(** Whether [pub.single] delivers the message of a topic; when it raises,
    the exception is caught and printed inside the loop. *)
Definition Broker : Type := Z -> TagState -> bool.

(** [send_telemetry]: the messages delivered, one attempt per object. *)
Definition send_telemetry (publish : Broker) (obj_dict : Registry)
  : list (Z * TagState) :=
  filter (fun kv => publish (fst kv) (snd kv)) obj_dict.

Section Server.

Variable libm : PyFloat.Libm.

(** The loop of [update_objects].  [updateObject] changes the object in
    place.  With zones as in [Zone], where [_extract_zone_names] raises
    nothing, every call of it that can raise comes before its first
    [obj.update], so an exception leaves the object as it was. *)
Fixpoint update_loop (results : list Tag) (obj_dict : Registry) : Tried :=
  match results with
  | [] => (obj_dict, None)
  | result :: rest =>
      match to_int (tag_id result) with
      | Raise e => (obj_dict, Some e)
      | Ok result_id =>
          match dict_get result_id obj_dict with
          | None => update_loop rest obj_dict
          | Some obj =>
              match updateObject libm obj result with
              | Ok obj' => update_loop rest (dict_set result_id obj' obj_dict)
              | Raise e => (obj_dict, Some e)
              end
          end
      end
  end.

Definition update_try (obj_dict : Registry) (fetched : option Response)
  : Tried :=
  match fetched with
  | None => (obj_dict, Some AttributeError)
  | Some response => update_loop (get_list (results response)) obj_dict
  end.

Definition update_objects (obj_dict : Registry) (fetched : option Response)
  : Registry :=
  fst (update_try obj_dict fetched).

(** The inner loop of [create_vectors]. *)
Fixpoint vectors_of (this_id : Z) (this_obj : TagState) (items : Registry)
  : result (list Vector) :=
  match items with
  | [] => Ok []
  | (other_id, other_obj) :: rest =>
      if other_id =? this_id then vectors_of this_id this_obj rest
      else
        vector <- create_vector libm this_obj other_obj ;;
        vectors_array <- vectors_of this_id this_obj rest ;;
        Ok (vector :: vectors_array)
  end.

Fixpoint create_vectors_loop (ids : list Z) (obj_dict : Registry) : Tried :=
  match ids with
  | [] => (obj_dict, None)
  | this_id :: rest =>
      match dict_get this_id obj_dict with
      | None => (obj_dict, Some KeyError)
      | Some this_obj =>
          match vectors_of this_id this_obj obj_dict with
          | Ok vectors_array =>
              create_vectors_loop rest
                (dict_set this_id (set_vct this_obj vectors_array) obj_dict)
          | Raise e => (obj_dict, Some e)
          end
      end
  end.

Definition create_vectors_try (obj_dict : Registry) : Tried :=
  create_vectors_loop (keys obj_dict) obj_dict.

Definition create_vectors (obj_dict : Registry) : Registry :=
  fst (create_vectors_try obj_dict).

(** What the outside world does during one pass of the loop of [main]:
    the answer of the locating service, the behaviour of the GPIO server
    and that of the broker. *)
Record Cycle : Type := {
  fetched : option Response;
  gpio : GpioServer;
  broker : Broker
}.

(** The body of [while True] ([sleep] and [print] do not fail). *)
Definition cycle (env : Cycle) (obj_dict : Registry) : result Registry :=
  let obj_dict := update_objects obj_dict (fetched env) in
  let obj_dict := create_vectors obj_dict in
  match snd (check_zones (gpio env) obj_dict) with
  | Some e => Raise e
  | None =>
      let _ := send_telemetry (broker env) obj_dict in
      Ok obj_dict
  end.

(** The state of [main]: inside the loop with a registry, or returned
    from the [except] clause that encloses the loop. *)
Inductive Main : Type :=
| Running (obj_dict : Registry)
| Exited (e : exn).

Fixpoint loop (cycles : list Cycle) (obj_dict : Registry) : Main :=
  match cycles with
  | [] => Running obj_dict
  | env :: rest =>
      match cycle env obj_dict with
      | Ok obj_dict' => loop rest obj_dict'
      | Raise e => Exited e
      end
  end.

(** [main], up to the end of the given passes of its loop. *)
Definition main (start : Cycle) (cycles : list Cycle) : Main :=
  match snd (set_all_lights (gpio start) false) with
  | Some e => Exited e
  | None =>
      match snd (set_all_lights (gpio start) true) with
      | Some e => Exited e
      | None => loop cycles (initialize_objects (fetched start))
      end
  end.

End Server.

End awacs_server.

(* ===================================================================== *)
(** * gpio_control.py *)
(* ===================================================================== *)

Module gpio_control.

(** A value of the decoded request body.  A string is kept as what [int]
    makes of it ([None] when [int] raises [ValueError]). *)
Inductive Json : Type :=
| JNull
| JBool (b : bool)
| JInt (z : Z)
| JFloat (x : float)
| JStr (as_int : option Z)
| JArray
| JObject.

(** What lines 11 to 17 of [do_POST] make of a request: reading or decoding
    the body raises; the decoded body is no JSON object (it has no [get]);
    or it is an object, with the values [get] finds under [pin] and under
    [state] ([JNull] for a missing key as for [null]). *)
Inductive Body : Type :=
| Unreadable (e : exn)
| NotAnObject
| Payload (pin state : Json).

Inductive Reply : Type :=
| Success
| BadRequest (error : string).

(** The dict [leds]: the LEDs created so far, each with its state (lit or
    not), in insertion order. *)
Definition Leds : Type := list (Z * bool).

Fixpoint led_get (pin : Z) (leds : Leds) : option bool :=
  match leds with
  | [] => None
  | (p, lit) :: rest => if p =? pin then Some lit else led_get pin rest
  end.

Fixpoint led_set (pin : Z) (lit : bool) (leds : Leds) : Leds :=
  match leds with
  | [] => [(pin, lit)]
  | (p, l) :: rest =>
      if p =? pin then (pin, lit) :: rest else (p, l) :: led_set pin lit rest
  end.

(** [int(pin)]: a bool is 0 or 1, a float is truncated (NaN and the
    infinities have no integer), a list or an object is a [TypeError]. *)
Definition int_of (pin : Json) : result Z :=
  match pin with
  | JBool b => Ok (if b then 1 else 0)
  | JInt z => Ok z
  | JFloat x =>
      match Prim2SF x with
      | S754_nan => Raise ValueError
      | S754_infinity _ => Raise OverflowError
      | S754_zero _ => Ok 0
      | S754_finite s m e =>
          let q := match e with
                   | Z.neg p => Z.pos m / Z.pow_pos 2 p
                   | _ => Z.pos m * 2 ^ e
                   end in
          Ok (if s then - q else q)
      end
  | JStr (Some z) => Ok z
  | JStr None => Raise ValueError
  | JNull | JArray | JObject => Raise TypeError
  end.

Definition is_None (v : Json) : bool :=
  match v with
  | JNull => true
  | _ => false
  end.

Section Board.

(** What [LED(pin)] does on the board the server runs on: the exception
    it raises, or [None] when the LED is created.  An LED that the board
    has created is taken to switch ([on], [off]) without raising. *)
Variable board : Z -> option exn.

(** What sending a reply does ([send_response], [end_headers] and
    [wfile.write]): the exception it raises, as when the client has gone,
    or [None]. *)
Variable send : Reply -> option exn.

(** The end of a request: the reply is sent, with the LEDs as the request
    has left them by then. *)
Definition answer (leds : Leds) (reply : Reply) : Leds * result Reply :=
  (leds, match send reply with
         | Some e => Raise e
         | None => Ok reply
         end).

(** [do_POST]: the LEDs it leaves, and the reply it has sent or the
    exception it raises.  A new LED is created off and then switched, and
    the reply is sent after the LED has been switched: a request can end
    by an exception with its LED already switched. *)
Definition do_POST (request : Body) (leds : Leds) : Leds * result Reply :=
  match request with
  | Unreadable e => (leds, Raise e)
  | NotAnObject => (leds, Raise AttributeError)
  | Payload pin state =>
      if is_None pin || is_None state then
        answer leds (BadRequest "Pin number and state must be provided")
      else
        match int_of pin with
        | Raise ValueError => answer leds (BadRequest "Invalid pin number")
        | Raise e => (leds, Raise e)
        | Ok pin =>
            match state with
            | JBool state =>
                match led_get pin leds with
                | Some _ => answer (led_set pin state leds) Success
                | None =>
                    match board pin with
                    | None =>
                        answer (led_set pin state (led_set pin false leds))
                          Success
                    | Some e => (leds, Raise e)
                    end
                end
            | _ => answer leds (BadRequest "Invalid state value")
            end
        end
  end.

(** The request [_control_light_pin] of the warning server posts for a
    command: the JSON object with the pin and the state. *)
Definition request_of (command : Z * bool) : Body :=
  Payload (JInt (fst command)) (JBool (snd command)).

(** The GPIO server handling the requests of a list of commands, one after
    the other. *)
Definition serve (commands : list (Z * bool)) (leds : Leds) : Leds :=
  fold_left (fun leds command => fst (do_POST (request_of command) leds))
    commands leds.

End Board.

End gpio_control.

(* ===================================================================== *)
(** * lightsController_gpiozero.py *)
(* ===================================================================== *)

Module lightsController_gpiozero.

Import dataProcessing config gpio_control.

(** [leds = {pin: LED(pin) for pin in ZONE_PIN_MAP.values()}]: one LED per
    mapped pin, created off. *)
Definition leds : Leds :=
  fold_left (fun leds pin => led_set pin false leds) (map snd ZONE_PIN_MAP) [].

(** [_control_light_pin]: a pin without LED raises [KeyError], which is
    caught and printed.  An LED of the dict is taken to switch without
    raising. *)
Definition _control_light_pin (leds : Leds) (pin : Z) (state : bool) : Leds :=
  match led_get pin leds with
  | Some _ => led_set pin state leds
  | None => leds
  end.

Definition set_all_lights (leds : Leds) (state : bool) : Leds :=
  fold_left (fun leds pin => _control_light_pin leds pin state)
    (map fst leds) leds.

Definition check_zones (leds : Leds) (objects : Registry) : Leds :=
  let penetrated_zones := lightsController.penetrated_zones objects in
  fold_left
    (fun leds zp =>
       _control_light_pin leds (snd zp)
         (negb (lightsController.zone_in (fst zp) penetrated_zones)))
    ZONE_PIN_MAP leds.

End lightsController_gpiozero.

(* ===================================================================== *)
(** * Concrete tags, objects and environments *)
(* ===================================================================== *)

Module Examples.

Import dataProcessing lightsController awacs_server.
Local Open Scope string_scope.

(** A platform for the examples.  Every example below moves along an axis
    by a distance whose square is a float, where neither [math.atan2] nor
    [**] consults the platform. *)
Definition plain : PyFloat.Libm :=
  {| PyFloat.c_atan2 := fun _ _ => nan; PyFloat.c_pow := fun _ _ => nan |}.

Definition stream (i : string) (v : float) (t : Field float) : Stream :=
  {| s_id := Some i; current_value := Number v; s_at := t |}.

(** A well-formed record: both position streams, stamped [t], and zones. *)
Definition tag (i : Z) (x y : float) (t : Field float) (zs : list string) : Tag :=
  {| tag_id := Value i;
     alias := Some "forklift";
     datastreams := Some [stream "posX" x t; stream "posY" y t];
     zones := Some (map (fun z => {| zone_name := Some z |}) zs) |}.

(** A record without position streams, one without [posX], and one whose
    [posX] text is not a number. *)
Definition tag_no_streams (i : Z) : Tag :=
  {| tag_id := Value i; alias := Some "forklift";
     datastreams := None; zones := None |}.

Definition tag_no_posX (i : Z) (y : float) : Tag :=
  {| tag_id := Value i; alias := Some "forklift";
     datastreams := Some [stream "posY" y (Value 101%float)]; zones := None |}.

Definition tag_bad_posX (i : Z) (y : float) : Tag :=
  {| tag_id := Value i; alias := Some "forklift";
     datastreams :=
       Some [ {| s_id := Some "posX"; current_value := NotANumber;
                 s_at := Value 101%float |};
              stream "posY" y (Value 101%float) ];
     zones := None |}.

(** An object as [createObject] and [updateObject] leave it. *)
Definition object (p : option Position) (t : option float) (h : History)
  (s : option PyNum) (g : option Z) (l b : list string) : TagState :=
  {| aka := "forklift"; pos := p; tms := t; his := h; spd := s; hdg := g;
     mvz := []; liz := l; bsz := b; vct := [] |}.

Definition at_ (x y : float) : option Position := Some (Some x, Some y).

Definition no_history : History := {| his_pos := None; his_tms := None |}.

(** An object first seen at the origin at time 100. *)
Definition parked : TagState :=
  object (at_ 0 0) (Some 100%float) no_history None None [] [].

(** An object that has driven from (0, 0) to (10, 0) in one second. *)
Definition driving : TagState :=
  object (at_ 10 0) (Some 101%float)
    {| his_pos := at_ 0 0; his_tms := Some 100%float |}
    (Some (PyFloat 36)) (Some 90) [] [].

(** An object that has driven from (0, 10) to (0, 0): its heading is 0. *)
Definition heading_zero : TagState :=
  object (at_ 0 0) (Some 101%float)
    {| his_pos := at_ 0 10; his_tms := Some 100%float |}
    (Some (PyFloat 36)) (Some 0) [] [].

(** An object created from a record without position streams. *)
Definition unlocated : TagState :=
  object (Some (None, None)) None no_history None None [] [].

(** An object first seen at (10, 10), and one inside the light zone LZ1. *)
Definition far : TagState :=
  object (at_ 10 10) (Some 100%float) no_history None None [] [].

Definition in_LZ1 : TagState :=
  object (at_ 0 0) (Some 100%float) no_history None None ["LZ1"] [].

(** A registry of three objects. *)
Definition fleet : Registry := [(1, parked); (2, driving); (3, far)].

Definition snapshot (tags : list Tag) : option Response :=
  Some {| results := Some tags |}.

(** A GPIO server that acknowledges every command, and one whose client
    call fails outside the [requests] exceptions. *)
Definition gpio_ok : GpioServer := fun _ _ => Acknowledged.
Definition gpio_broken : GpioServer := fun _ _ => UnexpectedException OSError.

(** Passes of the loop: the tag 1 reported at the origin and the lights
    acknowledged; no answer from the locating service; the GPIO client
    failing. *)
Definition broker_ok : Broker := fun _ _ => true.

Definition quiet : Cycle :=
  {| fetched := snapshot [tag 1 0 0 (Value 100%float) []];
     gpio := gpio_ok; broker := broker_ok |}.

Definition silent : Cycle :=
  {| fetched := None; gpio := gpio_ok; broker := fun _ _ => false |}.

Definition broken : Cycle :=
  {| fetched := snapshot [tag 1 0 0 (Value 100%float) []];
     gpio := gpio_broken; broker := broker_ok |}.

End Examples.

(* ===================================================================== *)
(** * Vocabulary of the statements *)
(* ===================================================================== *)

Module Outcome.

Import dataProcessing.
Local Open Scope string_scope.

(** The three zone lists of [obj'] are those of the record. *)
Definition refreshed (obj' : TagState) (data : Tag) : Prop :=
  mvz obj' = _extract_zone_names data "M" /\
  liz obj' = _extract_zone_names data "L" /\
  bsz obj' = _extract_zone_names data "B".

(** [obj'] holds the candidate position and the record's timestamp, and
    its history holds the prior pair of [obj]. *)
Definition committed (obj : TagState) (data : Tag) (candidate : Position)
  (obj' : TagState) : Prop :=
  pos obj' = Some candidate /\
  tms obj' = _extract_tms data /\
  his obj' = {| his_pos := pos obj; his_tms := tms obj |}.

(** Position, timestamp and history of [obj'] are those of [obj]. *)
Definition retained (obj obj' : TagState) : Prop :=
  pos obj' = pos obj /\ tms obj' = tms obj /\ his obj' = his obj.

End Outcome.

Module Handling.

Import lightsController.

(** A GPIO server whose client call either succeeds or raises a
    [requests] exception, whatever the command. *)
Definition handled (post : GpioServer) : Prop :=
  forall pin state e, post pin state <> UnexpectedException e.

End Handling.

(* ===================================================================== *)
(** * Vocabulary of the further statements *)
(* ===================================================================== *)

Module Reading.

Import dataProcessing.

(** The timestamps [_extract_tms] chooses from: those of the position
    streams whose [at] field [strptime] accepts, in the order of the
    record. *)
Definition position_stamps (response : Tag) : list float :=
  flat_map
    (fun stream =>
       if is_pos_stream stream then
         match s_at stream with
         | Value t => [t]
         | _ => []
         end
       else [])
    (get_list (datastreams response)).

(** A position value with a coordinate that is [None], or [None] itself. *)
Definition incomplete (coordinates : option Position) : Prop :=
  match coordinates with
  | None => True
  | Some (x, y) => x = None \/ y = None
  end.

(** Two objects that differ at most in their vectors. *)
Definition same_but_vct (obj obj' : TagState) : Prop :=
  aka obj' = aka obj /\ pos obj' = pos obj /\ tms obj' = tms obj /\
  his obj' = his obj /\ spd obj' = spd obj /\ hdg obj' = hdg obj /\
  mvz obj' = mvz obj /\ liz obj' = liz obj /\ bsz obj' = bsz obj.

(** Two registries with the same identifiers in the same order, whose
    objects differ at most in their vectors. *)
Definition same_registry (obj_dict obj_dict' : Registry) : Prop :=
  Forall2 (fun kv kv' => fst kv' = fst kv /\ same_but_vct (snd kv) (snd kv'))
    obj_dict obj_dict'.

(** The entries of a registry under another identifier than [this_id]. *)
Definition others (this_id : Z) (obj_dict : Registry) : Registry :=
  filter (fun kv => negb (fst kv =? this_id)) obj_dict.

End Reading.

(* ===================================================================== *)
(** * Further concrete registries and environments *)
(* ===================================================================== *)

Module Scenes.

Import dataProcessing lightsController awacs_server Examples.
Local Open Scope string_scope.

(** A board on which every LED can be created, and a client that
    receives every reply. *)
Definition board_ok : Z -> option exn := fun _ => None.
Definition send_ok : gpio_control.Reply -> option exn := fun _ => None.

(** A registry whose first object has no position. *)
Definition half_located : Registry := [(1, unlocated); (2, parked)].

(** The registry [half_located] once tag 2 has driven to (10, 0). *)
Definition half_moved : Registry := [(1, unlocated); (2, driving)].

(** A start-up whose snapshot holds a record with a [posX] text that is
    not a number between two well-formed records. *)
Definition startup : Cycle :=
  {| fetched := snapshot [tag 1 0 0 (Value 100%float) [];
                          tag_bad_posX 2 5;
                          tag 3 1 1 (Value 100%float) []];
     gpio := gpio_ok; broker := broker_ok |}.

(** The vectors of [driving] in [fleet]: to [parked] behind it and to
    [far] on its right. *)
Definition driving_vectors : list Vector :=
  [{| d := 180; r := 10; f := false |}; {| d := 90; r := 10; f := false |}].

End Scenes.

(* ===================================================================== *)
(** * Order on floats *)
(* ===================================================================== *)

Lemma SFcompare_Lt_swap (x y : spec_float) :
  SFcompare x y = Some Lt -> SFcompare y x = Some Gt.
Proof.
  destruct x as [sx | sx | | sx mx ex], y as [sy | sy | | sy my ey]; simpl;
    try discriminate;
    try (destruct sx; discriminate || reflexivity);
    try (destruct sy; discriminate || reflexivity);
    try (destruct sx, sy; discriminate || reflexivity).
  destruct sx, sy; try discriminate; try reflexivity;
    rewrite (Z.compare_antisym ex ey);
    destruct (ex ?= ey) eqn:E; simpl; try discriminate; try reflexivity;
    rewrite !Pos.compare_cont_spec; simpl;
    rewrite (Pos.compare_antisym mx my);
    destruct (mx ?= my)%positive; simpl; try discriminate; reflexivity.
Qed.

(** A float strictly below another is not above or equal to it. *)
Lemma ltb_leb_swap (x y : float) :
  (x <? y)%float = true -> (y <=? x)%float = false.
Proof.
  rewrite ltb_spec, leb_spec. unfold SFltb, SFleb.
  destruct (SFcompare (Prim2SF x) (Prim2SF y)) as [[ | | ] | ] eqn:E;
    try discriminate.
  intros _. now rewrite (SFcompare_Lt_swap _ _ E).
Qed.

(* ===================================================================== *)
(** * The update engine *)
(* ===================================================================== *)

Section UpdateEngine.

Import PyFloat geometricFunctions dataProcessing config Outcome.
Local Open Scope string_scope.

Variable libm : PyFloat.Libm.

Lemma bind_Ok {A B : Type} (r : result A) (k : A -> result B) (b : B) :
  bind r k = Ok b -> exists a, r = Ok a /\ k a = Ok b.
Proof. destruct r as [a | e]; simpl; [eauto | discriminate]. Qed.

(** With both positions known the test of [updateObject] is the
    comparison of the rounded distance with the threshold. *)
Lemma moved_known (obj : TagState) (data : Tag) (x y : Coord) (p : Position)
  (dist : float) :
  _extract_pos data "posX" = Ok x ->
  _extract_pos data "posY" = Ok y ->
  pos obj = Some p ->
  calculate_distance libm (Some (x, y)) (pos obj) = Ok dist ->
  moved libm obj data = Ok (POS_FLUCTUATION_FILTER <=? dist)%float.
Proof.
  intros Hx Hy Hp Hd. unfold moved. rewrite Hx, Hy. simpl.
  rewrite Hd. simpl. rewrite Hp. now rewrite orb_false_r.
Qed.

(** What a completed commit stores. *)
Lemma commit_inv (obj : TagState) (data : Tag) (obj1 : TagState) :
  commit libm obj data = Ok obj1 ->
  exists x y s,
    _extract_pos data "posX" = Ok x /\
    _extract_pos data "posY" = Ok y /\
    (if tms_truthy (_extract_tms data) && tms_truthy (tms obj)
     then calculate_speed libm (pos obj) (tms obj) (Some (x, y)) (_extract_tms data)
     else Ok (PyInt 0)) = Ok s /\
    pos obj1 = Some (x, y) /\
    tms obj1 = _extract_tms data /\
    his obj1 = {| his_pos := pos obj; his_tms := tms obj |} /\
    spd obj1 = Some s /\
    aka obj1 = aka obj /\
    mvz obj1 = mvz obj /\ liz obj1 = liz obj /\ bsz obj1 = bsz obj /\
    vct obj1 = vct obj.
Proof.
  unfold commit. intros H.
  apply bind_Ok in H as (x & Hx & H).
  apply bind_Ok in H as (y & Hy & H).
  apply bind_Ok in H as (s & Hs & H).
  apply bind_Ok in H as (h & Hh & H).
  inversion H; subst; clear H. simpl.
  exists x, y, s. repeat split; assumption.
Qed.

Lemma updateObject_rejected (obj : TagState) (data : Tag) :
  moved libm obj data = Ok false ->
  updateObject libm obj data = Ok (update_zones obj data).
Proof. intros H. unfold updateObject. now rewrite H. Qed.

Lemma updateObject_moved (obj : TagState) (data : Tag) :
  moved libm obj data = Ok true ->
  updateObject libm obj data =
    (obj1 <- commit libm obj data ;; Ok (update_zones obj1 data)).
Proof. intros H. unfold updateObject. now rewrite H. Qed.

Lemma update_zones_refreshed (obj : TagState) (data : Tag) :
  refreshed (update_zones obj data) data.
Proof. repeat split. Qed.

(** An object whose prior position is [None], or whose prior x is [None],
    is never updated: the distance is computed first, and raises. *)
Lemma updateObject_unknown_prior (obj : TagState) (data : Tag) (x y : Coord) :
  _extract_pos data "posX" = Ok x ->
  _extract_pos data "posY" = Ok y ->
  pos obj = None \/ (exists py, pos obj = Some (None, py)) ->
  updateObject libm obj data = Raise TypeError.
Proof.
  intros Hx Hy Hp. unfold updateObject, moved. rewrite Hx, Hy. simpl.
  destruct Hp as [-> | (py & ->)]; simpl; [reflexivity | ].
  now destruct x.
Qed.

(** ** C10: a rejected report changes the zone lists and the vectors only.

    When the prior position and the candidate position are known and the
    distance between them, as [calculate_distance] returns it, is below
    the fluctuation threshold, [updateObject] returns an object whose
    speed, heading, position, timestamp, history and alias are those of
    the object it was given; the three zone lists are those of the record
    and the vectors are reset to the empty list. *)
Theorem rejected_update_keeps_kinematics
  (obj : TagState) (data : Tag) (x y px py dist : float) :
  _extract_pos data "posX" = Ok (Some x) ->
  _extract_pos data "posY" = Ok (Some y) ->
  pos obj = Some (Some px, Some py) ->
  calculate_distance libm (Some (Some x, Some y)) (pos obj) = Ok dist ->
  (dist <? POS_FLUCTUATION_FILTER)%float = true ->
  exists obj',
    updateObject libm obj data = Ok obj' /\
    spd obj' = spd obj /\ hdg obj' = hdg obj /\
    retained obj obj' /\ aka obj' = aka obj /\
    refreshed obj' data /\ vct obj' = [].
Proof.
  intros Hx Hy Hp Hd Hlt.
  exists (update_zones obj data). split.
  - apply updateObject_rejected.
    rewrite (moved_known _ _ _ _ _ _ Hx Hy Hp Hd).
    now rewrite (ltb_leb_swap _ _ Hlt).
  - repeat split.
Qed.

(** ** C4 (amended): the speed after a committed update.

    After a committed update, when the new timestamp and the one moved
    into the history are both known and non-zero, the speed is 0 when the
    elapsed time is not positive, and otherwise the rounded distance from
    the historical to the new position divided by the elapsed time, times
    3600, divided by 1000, rounded to one decimal.  When either timestamp
    is unknown the speed is set to 0. *)
Theorem committed_update_speed (obj : TagState) (data : Tag) (obj' : TagState) :
  moved libm obj data = Ok true ->
  updateObject libm obj data = Ok obj' ->
  (forall t' t : float,
      tms obj' = Some t' -> his_tms (his obj') = Some t ->
      truthy t' = true -> truthy t = true ->
      exists dx,
        calculate_distance libm (his_pos (his obj')) (pos obj') = Ok dx /\
        spd obj' =
          Some (if (t' - t <=? 0)%float then PyInt 0
                else PyFloat (round1 (dx / (t' - t) * 3600 / 1000)%float))) /\
  (tms obj' = None \/ his_tms (his obj') = None -> spd obj' = Some (PyInt 0)).
Proof.
  intros Hm Hu. rewrite (updateObject_moved _ _ Hm) in Hu.
  apply bind_Ok in Hu as (obj1 & Hc & Hu).
  inversion Hu; subst; clear Hu. simpl.
  apply commit_inv in Hc
    as (x & y & s & _ & _ & Hs & Hpos & Htms & Hhis & Hspd & _).
  rewrite Hpos, Htms, Hhis, Hspd. simpl. split.
  - intros t' t Ht' Ht Htt' Htt.
    rewrite Ht', Ht in Hs. simpl in Hs. rewrite Htt', Htt in Hs. simpl in Hs.
    unfold calculate_speed in Hs.
    apply bind_Ok in Hs as (dx & Hdx & Hs). simpl in Hs.
    exists dx. split; [exact Hdx | ].
    destruct (t' - t <=? 0)%float; inversion Hs; reflexivity.
  - intros [Hn | Hn]; rewrite Hn in Hs; simpl in Hs.
    + inversion Hs; reflexivity.
    + rewrite andb_false_r in Hs. inversion Hs; reflexivity.
Qed.

(** The direction of a vector, case by case: the sentinel when both
    objects are in a bad-signal zone, when the heading is [None] and when
    the heading is the integer 0; otherwise the relative bearing. *)
Lemma create_vector_direction (obj other_obj : TagState) (v : Vector) :
  create_vector libm obj other_obj = Ok v ->
  (bsz obj <> [] -> bsz other_obj <> [] -> d v = -1) /\
  (hdg obj = None -> d v = -1) /\
  (hdg obj = Some 0 -> d v = -1) /\
  (forall h, hdg obj = Some h -> h <> 0 ->
     bsz obj = [] \/ bsz other_obj = [] ->
     exists b,
       calculate_heading libm (pos obj) (pos other_obj) = Ok b /\
       d v = (b - h) mod 360 /\ 0 <= d v < 360) /\
  (f v = true <-> bsz other_obj <> []).
Proof.
  unfold create_vector. intros H.
  apply bind_Ok in H as (dir & Hdir & H).
  apply bind_Ok in H as (radius & _ & H).
  inversion H; subst; clear H. simpl.
  repeat split.
  - intros Ha Hb. destruct (bsz obj); [congruence | ].
    destruct (bsz other_obj); [congruence | reflexivity].
  - intros Hh. rewrite Hh in Hdir. inversion Hdir; subst.
    destruct (bsz obj); [reflexivity | ]. now destruct (bsz other_obj).
  - intros Hh. rewrite Hh in Hdir. simpl in Hdir. inversion Hdir; subst.
    destruct (bsz obj); [reflexivity | ]. now destruct (bsz other_obj).
  - intros h Hh Hnz Hb. rewrite Hh in Hdir.
    destruct (h =? 0)%Z eqn:E; [apply Z.eqb_eq in E; congruence | ].
    simpl in Hdir.
    unfold calculate_angle in Hdir.
    apply bind_Ok in Hdir as (p1 & _ & Hdir).
    apply bind_Ok in Hdir as (p2 & _ & Hdir).
    apply bind_Ok in Hdir as (b & Hb' & Hdir).
    inversion Hdir; subst; clear Hdir.
    assert (Hmod : (360 + (b - h)) mod 360 = (b - h) mod 360).
    { replace (360 + (b - h)) with ((b - h) + 1 * 360) by ring.
      apply Z.mod_add. discriminate. }
    exists b. split; [exact Hb' | ].
    match goal with
    | |- ?X = _ /\ _ => assert (Hd : X = (b - h) mod 360)
    end.
    { destruct Hb as [Hb | Hb]; rewrite Hb; [exact Hmod | ].
      destruct (bsz obj); exact Hmod. }
    rewrite Hd. split; [reflexivity | ].
    apply Z.mod_pos_bound. reflexivity.
  - destruct (bsz other_obj); [discriminate | intros _; discriminate].
  - destruct (bsz other_obj); [congruence | reflexivity].
Qed.

End UpdateEngine.

(* ===================================================================== *)
(** * The code at the reference values and at the inputs it mishandles *)
(* ===================================================================== *)

Section Evaluations.

Import PyFloat geometricFunctions dataProcessing config awacs_server Examples.
Local Open Scope string_scope.

Variable libm : PyFloat.Libm.

(** ** C1: a move within the fluctuation that is committed.

    The prior position (0, 0) is known and the candidate (0.78125, 0) is
    at the Euclidean distance 0.78125, below the threshold 0.8 up to
    which position changes are to be ignored.  [calculate_distance]
    rounds the distance to one decimal before [updateObject] compares
    it; the rounded value is 0.8, the test [>=] holds and the update
    commits: the candidate position and the timestamp of the record are
    stored, the prior pair moves into the history, speed and heading are
    recomputed. *)
Theorem commit_within_fluctuation :
  pos parked = at_ 0 0 /\
  math_sqrt (0.78125 * 0.78125 + 0 * 0) = Ok 0.78125%float /\
  (0.78125 <? POS_FLUCTUATION_FILTER)%float = true /\
  calculate_distance libm (at_ 0.78125 0) (pos parked)
    = Ok POS_FLUCTUATION_FILTER /\
  moved libm parked (tag 1 0.78125 0 (Value 101%float) []) = Ok true /\
  updateObject libm parked (tag 1 0.78125 0 (Value 101%float) [])
    = Ok (object (at_ 0.78125 0) (Some 101%float)
            {| his_pos := at_ 0 0; his_tms := Some 100%float |}
            (Some (PyFloat 2.9)) (Some 90) [] []).
Proof. repeat split; vm_compute; reflexivity. Qed.

(** ** C6: the reference values of the primitives.

    [calculate_heading] from the origin gives 180 towards (0, 10), 90
    towards (10, 0) and 0 towards (0, -10): the bearing is measured from
    the negative y axis, turning towards the positive x axis.
    [calculate_distance] from the origin to (3, 4) gives 5.0. *)
Theorem reference_values :
  calculate_heading libm (at_ 0 0) (at_ 0 10) = Ok 180 /\
  calculate_heading libm (at_ 0 0) (at_ 10 0) = Ok 90 /\
  calculate_heading libm (at_ 0 0) (at_ 0 (-10)) = Ok 0 /\
  calculate_distance libm (at_ 0 0) (at_ 3 4) = Ok 5%float.
Proof. repeat split; vm_compute; reflexivity. Qed.

(** ** C5: a known heading of 0 degrees.

    An object that drove from (0, 10) to (0, 0) has heading 0.  Towards
    an object at (10, 0), outside every bad-signal zone, the relative
    bearing computed by [calculate_angle] is 90, but [create_vector]
    tests the truth value of the heading and gives the direction -1. *)
Theorem heading_zero_gives_sentinel :
  (o <- createObject 1 (tag 1 0 10 (Value 100%float) []) ;;
   updateObject libm o (tag 1 0 0 (Value 101%float) []))
    = Ok heading_zero /\
  hdg heading_zero = Some 0 /\
  calculate_angle libm (pos heading_zero) (at_ 10 0) 0 = Ok 90 /\
  create_vector libm heading_zero
    (object (at_ 10 0) (Some 101%float) no_history None None [] [])
    = Ok {| d := -1; r := 10; f := false |}.
Proof. repeat split; vm_compute; reflexivity. Qed.

(** ** C2: updates that raise.

    An object created from a record without position streams has the
    position [(None, None)]; updating it raises [TypeError] inside
    [calculate_distance], which is called before the prior position is
    compared with [None].  A record without [posX] raises [TypeError] in
    the same place, and one whose [posX] is not a number raises
    [ValueError] in [_extract_pos].  In [update_objects] the exception
    ends the loop over the response: the records after the failing one
    are not processed. *)
Theorem update_raises_on_unknown_position :
  createObject 1 (tag_no_streams 1) = Ok unlocated /\
  updateObject libm unlocated (tag 1 1 2 (Value 101%float) [])
    = Raise TypeError /\
  updateObject libm parked (tag_no_posX 1 2) = Raise TypeError /\
  updateObject libm parked (tag_bad_posX 1 2) = Raise ValueError /\
  update_try libm [(1, unlocated); (2, parked)]
    (snapshot [tag 1 1 2 (Value 101%float) [];
               tag 2 10 0 (Value 101%float) ["LZ1"]])
    = ([(1, unlocated); (2, parked)], Some TypeError).
Proof. repeat split; vm_compute; reflexivity. Qed.

End Evaluations.

(* ===================================================================== *)
(** * The registry *)
(* ===================================================================== *)

Section RegistryFacts.

Import dataProcessing awacs_server.

Lemma dict_get_set_eq (k : Z) (v : TagState) (obj_dict : Registry) :
  dict_get k (dict_set k v obj_dict) = Some v.
Proof.
  induction obj_dict as [ | [k' v'] rest IH]; simpl.
  - now rewrite Z.eqb_refl.
  - destruct (k' =? k) eqn:E; simpl; rewrite ?E, ?Z.eqb_refl; auto.
Qed.

Lemma dict_get_set_ne (k k' : Z) (v : TagState) (obj_dict : Registry) :
  k <> k' -> dict_get k' (dict_set k v obj_dict) = dict_get k' obj_dict.
Proof.
  intros Hne. induction obj_dict as [ | [k0 v0] rest IH]; simpl.
  - destruct (Z.eqb_spec k k'); [contradiction | reflexivity].
  - destruct (Z.eqb_spec k0 k) as [-> | Hk]; simpl.
    + destruct (Z.eqb_spec k k'); [contradiction | reflexivity].
    + now rewrite IH.
Qed.

Lemma dict_get_In_keys (k : Z) (obj_dict : Registry) :
  In k (keys obj_dict) <-> exists v, dict_get k obj_dict = Some v.
Proof.
  induction obj_dict as [ | [k' v'] rest IH]; simpl.
  - split; [contradiction | intros [v H]; discriminate].
  - destruct (Z.eqb_spec k' k) as [-> | Hk].
    + split; eauto.
    + rewrite <- IH. tauto.
Qed.

Lemma keys_dict_set_present (k : Z) (v : TagState) (obj_dict : Registry) :
  In k (keys obj_dict) -> keys (dict_set k v obj_dict) = keys obj_dict.
Proof.
  unfold keys.
  induction obj_dict as [ | [k' v'] rest IH]; simpl; [contradiction | ].
  destruct (Z.eqb_spec k' k) as [-> | Hk]; simpl; [reflexivity | ].
  intros [H | H]; [contradiction | ]. now rewrite IH.
Qed.

Lemma In_keys_dict_set (i k : Z) (v : TagState) (obj_dict : Registry) :
  In i (keys (dict_set k v obj_dict)) <-> i = k \/ In i (keys obj_dict).
Proof.
  unfold keys.
  induction obj_dict as [ | [k' v'] rest IH]; simpl.
  - intuition.
  - destruct (Z.eqb_spec k' k) as [-> | Hk]; simpl.
    + intuition.
    + rewrite IH. intuition.
Qed.

Lemma NoDup_keys_dict_set (k : Z) (v : TagState) (obj_dict : Registry) :
  NoDup (keys obj_dict) -> NoDup (keys (dict_set k v obj_dict)).
Proof.
  induction obj_dict as [ | [k' v'] rest IH]; simpl; intros H.
  - constructor; [intros [] | constructor].
  - inversion H as [ | ? ? Hnotin Hrest]; subst.
    destruct (Z.eqb_spec k' k) as [-> | Hk]; simpl.
    + now constructor.
    + constructor; [ | now apply IH].
      fold (keys (dict_set k v rest)). rewrite In_keys_dict_set.
      intros [-> | Hin]; [contradiction | now apply Hnotin].
Qed.

Lemma In_dict_get (k : Z) (v : TagState) (obj_dict : Registry) :
  NoDup (keys obj_dict) -> In (k, v) obj_dict -> dict_get k obj_dict = Some v.
Proof.
  induction obj_dict as [ | [k' v'] rest IH]; simpl; [contradiction | ].
  intros Hnd [Heq | Hin].
  - inversion Heq; subst. now rewrite Z.eqb_refl.
  - inversion Hnd as [ | ? ? Hnotin Hrest]; subst.
    destruct (Z.eqb_spec k' k) as [-> | Hk]; [ | now apply IH].
    exfalso. apply Hnotin. change k with (fst (k, v)). now apply in_map.
Qed.

Lemma length_keys (obj_dict : Registry) :
  length (keys obj_dict) = length obj_dict.
Proof. apply length_map. Qed.

(** In a dict every key but [i] belongs to another object. *)
Lemma others_all (i : Z) (obj_dict : Registry) :
  ~ In i (keys obj_dict) ->
  filter (fun kv => negb (fst kv =? i)) obj_dict = obj_dict.
Proof.
  induction obj_dict as [ | [k v] rest IH]; simpl; [reflexivity | ].
  intros Hnotin. destruct (Z.eqb_spec k i) as [-> | Hk]; simpl.
  - exfalso. apply Hnotin. now left.
  - rewrite IH; [reflexivity | ]. intros H. apply Hnotin. now right.
Qed.

Lemma others_count (i : Z) (obj_dict : Registry) :
  NoDup (keys obj_dict) -> In i (keys obj_dict) ->
  length (filter (fun kv => negb (fst kv =? i)) obj_dict)
    = (length obj_dict - 1)%nat.
Proof.
  induction obj_dict as [ | [k v] rest IH]; simpl; [contradiction | ].
  intros Hnd Hin. inversion Hnd as [ | ? ? Hnotin Hrest]; subst.
  destruct (Z.eqb_spec k i) as [-> | Hk]; simpl.
  - rewrite others_all by assumption. lia.
  - destruct Hin as [Heq | Hin]; [contradiction | ].
    rewrite IH by assumption.
    destruct rest; [contradiction | simpl; lia].
Qed.

End RegistryFacts.

(* ===================================================================== *)
(** * The server: registry life cycle, vectors, lights and the main loop *)
(* ===================================================================== *)

Section ServerFacts.

Import dataProcessing config lightsController awacs_server Handling.

Variable libm : PyFloat.Libm.

(** ** Identifiers of the registry *)

Lemma initialize_loop_keys (results : list Tag) :
  forall obj_dict,
    snd (initialize_loop results obj_dict) = None ->
    forall i,
      In i (keys (fst (initialize_loop results obj_dict))) <->
      In i (keys obj_dict) \/ exists t, In t results /\ tag_id t = Value i.
Proof.
  induction results as [ | result rest IH]; simpl; intros obj_dict Hdone i.
  - split; [now left | ]. intros [H | (t & [] & _)]. exact H.
  - destruct (tag_id result) as [ | | z] eqn:Hid; simpl in *;
      try discriminate.
    destruct (createObject _ result) as [obj | e]; simpl in *;
      [ | discriminate].
    rewrite (IH _ Hdone), In_keys_dict_set. split.
    + intros [[-> | H] | (t & Ht & Hi)].
      * right. exists result. auto.
      * now left.
      * right. exists t. auto.
    + intros [H | (t & [<- | Ht] & Hi)].
      * left. now right.
      * rewrite Hid in Hi. inversion Hi; subst. left. now left.
      * right. eauto.
Qed.

Lemma initialize_loop_NoDup (results : list Tag) :
  forall obj_dict,
    NoDup (keys obj_dict) ->
    NoDup (keys (fst (initialize_loop results obj_dict))).
Proof.
  induction results as [ | result rest IH]; simpl; intros obj_dict Hnd;
    [exact Hnd | ].
  destruct (tag_id result); simpl; try exact Hnd.
  destruct (createObject _ result); simpl; [ | exact Hnd].
  apply IH. now apply NoDup_keys_dict_set.
Qed.

(** The registry built at start-up has no repeated key. *)
Lemma initialize_objects_NoDup (fetched : option Response) :
  NoDup (keys (initialize_objects fetched)).
Proof.
  unfold initialize_objects, initialize_try.
  destruct fetched; [ | constructor].
  apply initialize_loop_NoDup. constructor.
Qed.

Lemma update_loop_keys (results : list Tag) :
  forall obj_dict,
    keys (fst (update_loop libm results obj_dict)) = keys obj_dict.
Proof.
  induction results as [ | result rest IH]; simpl; intros obj_dict;
    [reflexivity | ].
  destruct (to_int (tag_id result)) as [result_id | e]; [ | reflexivity].
  destruct (dict_get result_id obj_dict) as [obj | ] eqn:Hget; [ | apply IH].
  destruct (updateObject libm obj result) as [obj' | e];
    [ | reflexivity].
  rewrite IH. apply keys_dict_set_present, dict_get_In_keys. eauto.
Qed.

Lemma update_objects_keys (obj_dict : Registry) (fetched : option Response) :
  keys (update_objects libm obj_dict fetched) = keys obj_dict.
Proof.
  unfold update_objects, update_try.
  destruct fetched; [apply update_loop_keys | reflexivity].
Qed.

Lemma create_vectors_loop_keys (ids : list Z) :
  forall obj_dict,
    keys (fst (create_vectors_loop libm ids obj_dict)) = keys obj_dict.
Proof.
  induction ids as [ | this_id rest IH]; simpl; intros obj_dict;
    [reflexivity | ].
  destruct (dict_get this_id obj_dict) as [this_obj | ] eqn:Hget;
    [ | reflexivity].
  destruct (vectors_of libm this_id this_obj obj_dict); [ | reflexivity].
  rewrite IH. apply keys_dict_set_present, dict_get_In_keys. eauto.
Qed.

Lemma create_vectors_keys (obj_dict : Registry) :
  keys (create_vectors libm obj_dict) = keys obj_dict.
Proof. apply create_vectors_loop_keys. Qed.

Lemma cycle_keys (env : Cycle) (obj_dict obj_dict' : Registry) :
  cycle libm env obj_dict = Ok obj_dict' ->
  keys obj_dict' = keys obj_dict.
Proof.
  unfold cycle.
  destruct (snd (check_zones _ _)); [discriminate | ].
  intros H. inversion H; subst.
  now rewrite create_vectors_keys, update_objects_keys.
Qed.

Lemma loop_keys (cycles : list Cycle) :
  forall obj_dict obj_dict',
    loop libm cycles obj_dict = Running obj_dict' ->
    keys obj_dict' = keys obj_dict.
Proof.
  induction cycles as [ | env rest IH]; simpl; intros obj_dict obj_dict' H.
  - now inversion H.
  - destruct (cycle libm env obj_dict) as [obj_dict1 | e] eqn:Hc;
      [ | discriminate].
    rewrite (IH _ _ H). now apply cycle_keys in Hc.
Qed.

(** Every registry [main] holds is a dict: no identifier is repeated. *)
Lemma main_registry_NoDup (start : Cycle) (cycles : list Cycle)
  (obj_dict : Registry) :
  main libm start cycles = Running obj_dict -> NoDup (keys obj_dict).
Proof.
  unfold main.
  destruct (snd (set_all_lights (gpio start) false)); [discriminate | ].
  destruct (snd (set_all_lights (gpio start) true)); [discriminate | ].
  intros H. rewrite (loop_keys _ _ _ H). apply initialize_objects_NoDup.
Qed.

(** ** C3 (amended): identifiers are registered at start-up only.

    When the start-up snapshot is processed without an exception, the
    registry holds exactly the identifiers of its records.  Afterwards
    the set of registered identifiers never changes: [update_objects]
    neither adds the identifiers a later snapshot brings for the first
    time nor removes those it no longer reports, [create_vectors] keeps
    the identifiers, and so does every number of passes of the loop. *)
Theorem registry_identifiers_fixed_at_startup :
  (forall response,
      snd (initialize_try (Some response)) = None ->
      forall i,
        In i (keys (initialize_objects (Some response))) <->
        exists t, In t (get_list (results response)) /\ tag_id t = Value i) /\
  (forall obj_dict fetched,
      keys (update_objects libm obj_dict fetched) = keys obj_dict) /\
  (forall obj_dict,
      keys (create_vectors libm obj_dict) = keys obj_dict) /\
  (forall cycles obj_dict obj_dict',
      loop libm cycles obj_dict = Running obj_dict' ->
      keys obj_dict' = keys obj_dict).
Proof.
  split; [ | split; [ | split]].
  - intros response Hdone i. unfold initialize_objects.
    simpl in *. rewrite (initialize_loop_keys _ _ Hdone). simpl.
    split; [intros [[] | H]; exact H | now right].
  - apply update_objects_keys.
  - apply create_vectors_keys.
  - apply loop_keys.
Qed.

(** ** Vectors *)

Lemma vectors_of_length (this_id : Z) (this_obj : TagState) (items : Registry) :
  forall vectors_array,
    vectors_of libm this_id this_obj items = Ok vectors_array ->
    length vectors_array
      = length (filter (fun kv => negb (fst kv =? this_id)) items).
Proof.
  induction items as [ | [other_id other_obj] rest IH]; simpl;
    intros vectors_array H.
  - now inversion H.
  - destruct (other_id =? this_id); simpl; [now apply IH | ].
    apply bind_Ok in H as (vector & _ & H).
    apply bind_Ok in H as (vs & Hvs & H).
    inversion H; subst. simpl. f_equal. now apply IH.
Qed.

(** The loop of [create_vectors] over the identifiers [ids]: when it ends
    without an exception, the objects of [ids] hold one vector per other
    object and the other objects are as they were. *)
Lemma create_vectors_loop_spec (ids : list Z) :
  forall obj_dict obj_dict',
    NoDup ids -> NoDup (keys obj_dict) ->
    create_vectors_loop libm ids obj_dict = (obj_dict', None) ->
    keys obj_dict' = keys obj_dict /\
    (forall i obj, In i ids -> dict_get i obj_dict' = Some obj ->
                   length (vct obj) = (length obj_dict - 1)%nat) /\
    (forall i, ~ In i ids -> dict_get i obj_dict' = dict_get i obj_dict).
Proof.
  induction ids as [ | this_id rest IH]; simpl;
    intros obj_dict obj_dict' Hids Hnd H.
  - inversion H; subst. split; [reflexivity | ].
    split; [intros i obj [] | reflexivity].
  - destruct (dict_get this_id obj_dict) as [this_obj | ] eqn:Hget;
      [ | discriminate].
    destruct (vectors_of libm this_id this_obj obj_dict)
      as [vectors_array | e] eqn:Hvs; [ | discriminate].
    inversion Hids as [ | ? ? Hnotin Hrest]; subst.
    assert (Hin : In this_id (keys obj_dict))
      by (apply dict_get_In_keys; eauto).
    pose proof (keys_dict_set_present this_id
                  (set_vct this_obj vectors_array) obj_dict Hin) as Hkeys.
    assert (Hnd1 : NoDup (keys (dict_set this_id
                                  (set_vct this_obj vectors_array) obj_dict)))
      by (rewrite Hkeys; exact Hnd).
    destruct (IH _ _ Hrest Hnd1 H) as (Hk & Hdone & Hother).
    assert (Hlen : length (dict_set this_id
                             (set_vct this_obj vectors_array) obj_dict)
                   = length obj_dict)
      by (rewrite <- !length_keys; now rewrite Hkeys).
    split; [now rewrite Hk | ]. split.
    + intros i obj [<- | Hi] Hobj.
      * rewrite (Hother _ Hnotin), dict_get_set_eq in Hobj.
        inversion Hobj; subst. simpl.
        rewrite (vectors_of_length _ _ _ _ Hvs).
        now apply others_count.
      * rewrite <- Hlen. now apply (Hdone i).
    + intros i Hi. rewrite Hother by tauto.
      apply dict_get_set_ne. intros ->. apply Hi. now left.
Qed.

(** An object without a known position makes [create_vector] raise: the
    loop of [create_vectors] stops and the vectors stay as they were. *)
Lemma create_vectors_stops_on_unknown_position :
  create_vectors_try libm
    [(1, Examples.parked); (2, Examples.unlocated)]
  = ([(1, Examples.parked); (2, Examples.unlocated)], Some TypeError).
Proof. vm_compute. reflexivity. Qed.

(** ** C7: one vector per other object.

    When [create_vectors] runs to completion (its loop ends without an
    exception) on a registry, every object of the resulting registry has
    as many vectors as the registry has other objects: [n - 1] for [n]
    objects. *)
Theorem create_vectors_length (obj_dict obj_dict' : Registry) :
  NoDup (keys obj_dict) ->
  create_vectors_try libm obj_dict = (obj_dict', None) ->
  length obj_dict' = length obj_dict /\
  forall i obj, In (i, obj) obj_dict' ->
                length (vct obj) = (length obj_dict' - 1)%nat.
Proof.
  intros Hnd Hdone. unfold create_vectors_try in Hdone.
  destruct (create_vectors_loop_spec _ _ _ Hnd Hnd Hdone)
    as (Hk & Hdone' & _).
  assert (Hlen : length obj_dict' = length obj_dict)
    by (rewrite <- !length_keys; now rewrite Hk).
  split; [exact Hlen | ]. intros i obj Hin. rewrite Hlen.
  apply (Hdone' i).
  - rewrite <- Hk. change i with (fst (i, obj)). now apply in_map.
  - apply In_dict_get; [now rewrite Hk | exact Hin].
Qed.

(** ** Lights *)

Lemma zone_in_In (zone : string) (zs : list string) :
  zone_in zone zs = true <-> In zone zs.
Proof.
  unfold zone_in. rewrite existsb_exists. split.
  - intros (z & Hz & E). apply String.eqb_eq in E. now subst.
  - intros H. exists zone. split; [exact H | apply String.eqb_refl].
Qed.

Lemma In_penetrated_zones (zone : string) (objects : Registry) :
  In zone (penetrated_zones objects) <->
  exists i obj, In (i, obj) objects /\ In zone (liz obj).
Proof.
  unfold penetrated_zones. rewrite in_flat_map. split.
  - intros ([i obj] & Hin & Hz). eauto.
  - intros (i & obj & Hin & Hz). exists (i, obj). auto.
Qed.

Lemma check_zones_loop_sent (post : GpioServer) (penetrated : list string)
  (items : list (string * Z)) :
  snd (check_zones_loop post penetrated items) = None ->
  fst (check_zones_loop post penetrated items)
    = map (fun zp => (snd zp, negb (zone_in (fst zp) penetrated))) items.
Proof.
  induction items as [ | [zone pin] rest IH]; simpl; [reflexivity | ].
  destruct (_control_light_pin post pin _); simpl; [ | discriminate].
  destruct (check_zones_loop post penetrated rest) as [sent e]; simpl in *.
  intros ->. now rewrite IH.
Qed.

Lemma check_zones_loop_handled (post : GpioServer) (penetrated : list string)
  (items : list (string * Z)) :
  handled post -> snd (check_zones_loop post penetrated items) = None.
Proof.
  intros Hpost. induction items as [ | [zone pin] rest IH]; simpl;
    [reflexivity | ].
  unfold _control_light_pin.
  destruct (post pin (negb (zone_in zone penetrated))) eqn:E; simpl;
    try (destruct (check_zones_loop post penetrated rest); exact IH).
  now apply Hpost in E.
Qed.

Lemma ZONE_PIN_MAP_pins : NoDup (map snd ZONE_PIN_MAP).
Proof.
  unfold ZONE_PIN_MAP. simpl.
  repeat constructor; simpl; intuition discriminate.
Qed.

Lemma pin_zone_unique {A : Type} (items : list (A * Z)) (a b : A) (pin : Z) :
  NoDup (map snd items) -> In (a, pin) items -> In (b, pin) items -> a = b.
Proof.
  induction items as [ | [c p] rest IH]; simpl; [contradiction | ].
  intros Hnd Ha Hb. inversion Hnd as [ | ? ? Hnotin Hrest]; subst.
  destruct Ha as [Ha | Ha], Hb as [Hb | Hb].
  - congruence.
  - inversion Ha; subst. exfalso. apply Hnotin.
    change pin with (snd (b, pin)). now apply in_map.
  - inversion Hb; subst. exfalso. apply Hnotin.
    change pin with (snd (a, pin)). now apply in_map.
  - now apply IH.
Qed.

(** ** C8: the polarity of the zone lights.

    When [check_zones] has sent its commands, the one command sent for
    the pin of a mapped zone carries the state ON ([True]) exactly when
    no object of the registry lists the zone among its light zones, and
    OFF ([False]) exactly when some object does. *)
Theorem check_zones_polarity (post : GpioServer) (objects : Registry)
  (zone : string) (pin : Z) :
  In (zone, pin) ZONE_PIN_MAP ->
  snd (check_zones post objects) = None ->
  exists state,
    In (pin, state) (fst (check_zones post objects)) /\
    (forall s, In (pin, s) (fst (check_zones post objects)) -> s = state) /\
    (state = true <->
     ~ exists i obj, In (i, obj) objects /\ In zone (liz obj)) /\
    (state = false <->
     exists i obj, In (i, obj) objects /\ In zone (liz obj)).
Proof.
  intros Hmap Hdone. unfold check_zones in *.
  rewrite (check_zones_loop_sent _ _ _ Hdone).
  exists (negb (zone_in zone (penetrated_zones objects))).
  split; [ | split; [ | split]].
  - apply in_map_iff. exists (zone, pin). auto.
  - intros s Hs. apply in_map_iff in Hs as ([zone' pin'] & E & Hin).
    simpl in E. inversion E; subst.
    now rewrite (pin_zone_unique _ _ _ _ ZONE_PIN_MAP_pins Hin Hmap).
  - rewrite negb_true_iff, <- In_penetrated_zones, <- zone_in_In.
    now destruct (zone_in zone (penetrated_zones objects)).
  - rewrite negb_false_iff, <- In_penetrated_zones, <- zone_in_In.
    reflexivity.
Qed.

(** ** The main loop *)

Lemma cycle_handled (env : Cycle) (obj_dict : Registry) :
  handled (gpio env) -> exists obj_dict', cycle libm env obj_dict = Ok obj_dict'.
Proof.
  intros H. unfold cycle, check_zones.
  rewrite (check_zones_loop_handled _ _ _ H). eauto.
Qed.

Lemma loop_handled (cycles : list Cycle) :
  forall obj_dict,
    Forall (fun env => handled (gpio env)) cycles ->
    exists obj_dict', loop libm cycles obj_dict = Running obj_dict'.
Proof.
  induction cycles as [ | env rest IH]; simpl; intros obj_dict H; eauto.
  inversion H as [ | ? ? Henv Hrest]; subst.
  destruct (cycle_handled env obj_dict Henv) as (obj_dict1 & ->).
  now apply IH.
Qed.

Lemma loop_exits (before : list Cycle) :
  forall env after obj_dict obj_dict1 e,
    loop libm before obj_dict = Running obj_dict1 ->
    cycle libm env obj_dict1 = Raise e ->
    loop libm (before ++ env :: after) obj_dict = Exited e.
Proof.
  induction before as [ | env0 rest IH]; simpl;
    intros env after obj_dict obj_dict1 e Hrun Hc.
  - inversion Hrun; subst. now rewrite Hc.
  - destruct (cycle libm env0 obj_dict); [ | discriminate].
    now apply (IH _ _ _ obj_dict1).
Qed.

Lemma set_all_lights_loop_handled (post : GpioServer) (pins : list Z)
  (state : bool) :
  handled post -> snd (set_all_lights_loop post pins state) = None.
Proof.
  intros Hpost. induction pins as [ | pin rest IH]; simpl; [reflexivity | ].
  unfold _control_light_pin.
  destruct (post pin state) eqn:E; simpl;
    try (destruct (set_all_lights_loop post rest state); exact IH).
  now apply Hpost in E.
Qed.

(** ** C9 (amended): what keeps the loop of [main] running.

    Whatever the locating service answers at start-up and in each pass (no
    answer, a malformed record, any record) and whatever the broker does,
    [main] is still in its loop after any number of passes, as long as the
    calls to the GPIO server raise nothing but [requests] exceptions: the
    failures of the update, vector and telemetry stages are caught inside
    the stages.  An exception that leaves a pass of the loop is caught by
    the handler that encloses the loop: [main] returns, and the passes
    that would follow do not run. *)
Theorem main_loop_runs_until_a_stage_raises :
  (forall start cycles,
      handled (gpio start) ->
      Forall (fun env => handled (gpio env)) cycles ->
      exists obj_dict, main libm start cycles = Running obj_dict) /\
  (forall start before env after obj_dict e,
      main libm start before = Running obj_dict ->
      cycle libm env obj_dict = Raise e ->
      main libm start (before ++ env :: after) = Exited e).
Proof.
  split.
  - intros start cycles Hstart Hcycles. unfold main, set_all_lights.
    rewrite !(set_all_lights_loop_handled _ _ _ Hstart).
    now apply loop_handled.
  - intros start before env after obj_dict e Hrun Hc.
    unfold main in *.
    destruct (snd (set_all_lights (gpio start) false)); [discriminate Hrun | ].
    destruct (snd (set_all_lights (gpio start) true)); [discriminate Hrun | ].
    now apply (loop_exits before env after _ obj_dict).
Qed.

End ServerFacts.

Module Counterexamples.

Import PyFloat geometricFunctions dataProcessing config Outcome.
Import lightsController awacs_server Examples.
Local Open Scope string_scope.

(** C4 as stated fails: an object with speed 36.0 receives a record whose
    timestamps [strptime] rejects, so that the new timestamp is unknown;
    the update commits and sets the speed to 0 instead of leaving 36.0.
    A newly created object has no speed at all. *)
Lemma speed_reset_without_timestamp :
  (o <- createObject 1 (tag 1 0 0 (Value 100%float) []) ;;
   updateObject plain o (tag 1 10 0 (Value 101%float) [])) = Ok driving /\
  spd driving = Some (PyFloat 36) /\
  moved plain driving (tag 1 20 0 Malformed []) = Ok true /\
  (exists obj',
     updateObject plain driving (tag 1 20 0 Malformed []) = Ok obj' /\
     tms obj' = None /\ spd obj' = Some (PyInt 0)) /\
  (exists obj,
     createObject 1 (tag 1 0 0 (Value 100%float) []) = Ok obj /\ spd obj = None).
Proof.
  split; [vm_compute; reflexivity | ]. split; [reflexivity | ].
  split; [vm_compute; reflexivity | ]. split.
  - eexists. split; [vm_compute; reflexivity | ]. split; reflexivity.
  - eexists. split; [vm_compute; reflexivity | reflexivity].
Qed.

(** C3 as stated fails: the registry was built from a snapshot that
    reports the tag 1; a later snapshot reports the tag 2 for the first
    time, and [update_objects] creates no object for it. *)
Lemma first_sighting_after_startup_ignored :
  keys (initialize_objects (snapshot [tag 1 0 0 (Value 100%float) []])) = [1] /\
  dict_get 2
    (update_objects plain
       (initialize_objects (snapshot [tag 1 0 0 (Value 100%float) []]))
       (snapshot [tag 1 0 0 (Value 101%float) [];
                  tag 2 5 5 (Value 101%float) []]))
    = None.
Proof. split; vm_compute; reflexivity. Qed.

(** C9 as stated fails: the GPIO client raises an exception that
    [_control_light_pin] does not catch during the first pass of the
    loop; [main] returns, and the second pass never runs. *)
Lemma main_returns_on_escaped_exception :
  cycle plain broken (initialize_objects (fetched quiet)) = Raise OSError /\
  main plain quiet [broken; quiet] = Exited OSError.
Proof. split; vm_compute; reflexivity. Qed.

End Counterexamples.

(* ===================================================================== *)
(** * The theorems at concrete inputs *)
(* ===================================================================== *)

Module Witnesses.

Import PyFloat geometricFunctions dataProcessing config Outcome Handling.
Import lightsController awacs_server Examples.
Local Open Scope string_scope.

(** The object [driving] receives a report 0.5 away from its position. *)
Lemma rejected_update_keeps_kinematics_witness :
  exists obj',
    updateObject plain driving (tag 1 10.5 0 (Value 102%float) ["LZ1"])
      = Ok obj' /\
    spd obj' = spd driving /\ hdg obj' = hdg driving /\
    retained driving obj' /\ aka obj' = aka driving /\
    refreshed obj' (tag 1 10.5 0 (Value 102%float) ["LZ1"]) /\ vct obj' = [].
Proof.
  apply (rejected_update_keeps_kinematics plain driving
           (tag 1 10.5 0 (Value 102%float) ["LZ1"]) 10.5 0 10 0 0.5);
    reflexivity.
Defined.

(** The update that takes [parked] to [driving]: 10 units in one second
    are 36.0 km/h. *)
Lemma committed_update_speed_witness :
  spd driving = Some (PyFloat 36) /\
  ((forall t' t : float,
       tms driving = Some t' -> his_tms (his driving) = Some t ->
       truthy t' = true -> truthy t = true ->
       exists dx,
         calculate_distance plain (his_pos (his driving)) (pos driving) = Ok dx /\
         spd driving =
           Some (if (t' - t <=? 0)%float then PyInt 0
                 else PyFloat (round1 (dx / (t' - t) * 3600 / 1000)%float))) /\
   (tms driving = None \/ his_tms (his driving) = None ->
    spd driving = Some (PyInt 0))).
Proof.
  split; [reflexivity | ].
  apply (committed_update_speed plain parked
           (tag 1 10 0 (Value 101%float) []) driving); reflexivity.
Defined.

(** The three objects of [fleet] get two vectors each. *)
Lemma create_vectors_length_witness :
  create_vectors_try plain fleet = (create_vectors plain fleet, None) /\
  (length (create_vectors plain fleet) = length fleet /\
   forall i obj, In (i, obj) (create_vectors plain fleet) ->
                 length (vct obj)
                 = (length (create_vectors plain fleet) - 1)%nat).
Proof.
  split; [reflexivity | ].
  apply (create_vectors_length plain fleet (create_vectors plain fleet)).
  - repeat constructor; simpl; intuition discriminate.
  - reflexivity.
Defined.

(** One object inside LZ1: the light of LZ1, on pin 2, is commanded OFF. *)
Lemma check_zones_polarity_witness :
  exists state,
    In (2, state) (fst (check_zones gpio_ok [(1, in_LZ1)])) /\
    (forall s, In (2, s) (fst (check_zones gpio_ok [(1, in_LZ1)])) ->
               s = state) /\
    (state = true <->
     ~ exists i obj, In (i, obj) [(1, in_LZ1)] /\ In "LZ1" (liz obj)) /\
    (state = false <->
     exists i obj, In (i, obj) [(1, in_LZ1)] /\ In "LZ1" (liz obj)).
Proof.
  apply (check_zones_polarity gpio_ok [(1, in_LZ1)] "LZ1" 2).
  - simpl. auto.
  - reflexivity.
Defined.

(** A start-up snapshot with the tags 1 and 2 registers the tag 2. *)
Lemma registry_identifiers_fixed_at_startup_witness :
  In 2 (keys (initialize_objects
                (snapshot [tag 1 0 0 (Value 100%float) [];
                           tag 2 5 5 (Value 100%float) []]))) <->
  exists t,
    In t [tag 1 0 0 (Value 100%float) []; tag 2 5 5 (Value 100%float) []] /\
    tag_id t = Value 2.
Proof.
  apply (proj1 (registry_identifiers_fixed_at_startup plain)
           {| results := Some [tag 1 0 0 (Value 100%float) [];
                               tag 2 5 5 (Value 100%float) []] |}).
  reflexivity.
Defined.

(** Two passes with an acknowledging GPIO server keep [main] in its loop,
    also when the locating service does not answer; a pass in which the
    GPIO client fails unexpectedly ends it. *)
Lemma main_loop_runs_until_a_stage_raises_witness :
  (exists obj_dict, main plain quiet [quiet; silent] = Running obj_dict) /\
  main plain quiet ([quiet] ++ broken :: [quiet]) = Exited OSError.
Proof.
  split.
  - apply (proj1 (main_loop_runs_until_a_stage_raises plain)).
    + intros pin state e; discriminate.
    + repeat constructor; intros pin state e; discriminate.
  - apply (proj2 (main_loop_runs_until_a_stage_raises plain)
             quiet [quiet] broken [quiet]
             (create_vectors plain
                (update_objects plain (initialize_objects (fetched quiet))
                   (fetched quiet))));
      reflexivity.
Defined.

End Witnesses.

(* ===================================================================== *)
(** * Reading a record *)
(* ===================================================================== *)

Lemma SFcompare_Lt_trans (x y z : spec_float) :
  SFcompare x y = Some Lt -> SFcompare y z = Some Lt -> SFcompare x z = Some Lt.
Proof.
  destruct x as [sx | sx | | sx mx ex], y as [sy | sy | | sy my ey],
    z as [sz | sz | | sz mz ez]; simpl; try discriminate;
    try (destruct sx; discriminate || reflexivity);
    try (destruct sy; discriminate || reflexivity);
    try (destruct sz; discriminate || reflexivity);
    try (destruct sx, sy; discriminate || reflexivity);
    try (destruct sx, sz; discriminate || reflexivity);
    try (destruct sy, sz; discriminate || reflexivity);
    try (destruct sx, sy, sz; discriminate || reflexivity).
  all: rewrite ?Pos.compare_cont_spec; simpl.
  all: destruct sx, sy, sz; try discriminate; try reflexivity.
  all: destruct (Z.compare_spec ex ey), (Z.compare_spec ey ez),
         (Z.compare_spec ex ez); subst; try discriminate; try reflexivity;
         try lia.
  all: destruct (Pos.compare_spec mx my), (Pos.compare_spec my mz),
         (Pos.compare_spec mx mz); subst; simpl; try discriminate;
         try reflexivity; try lia.
Qed.

(** [<] on floats is transitive and irreflexive. *)
Lemma ltb_trans (x y z : float) :
  (x <? y)%float = true -> (y <? z)%float = true -> (x <? z)%float = true.
Proof.
  rewrite !ltb_spec. unfold SFltb.
  destruct (SFcompare (Prim2SF x) (Prim2SF y)) as [[ | | ] | ] eqn:Exy;
    try discriminate.
  destruct (SFcompare (Prim2SF y) (Prim2SF z)) as [[ | | ] | ] eqn:Eyz;
    try discriminate.
  now rewrite (SFcompare_Lt_trans _ _ _ Exy Eyz).
Qed.

Lemma ltb_irrefl (x : float) : (x <? x)%float = false.
Proof.
  rewrite ltb_spec. unfold SFltb.
  destruct (Prim2SF x) as [s | s | | s m e]; simpl; try reflexivity;
    try (now destruct s).
  destruct s; rewrite Z.compare_refl, Pos.compare_cont_spec,
    Pos.compare_refl; reflexivity.
Qed.

Section ReadingFacts.

Import PyFloat geometricFunctions dataProcessing config Outcome Reading.
Local Open Scope string_scope.

(** A name cannot start with two different letters. *)
Lemma prefix_letter (a b : Ascii.ascii) (name : string) :
  String.prefix (String a EmptyString) name = true ->
  String.prefix (String b EmptyString) name = true -> a = b.
Proof.
  destruct name as [ | c rest]; simpl; [discriminate | ].
  destruct (Ascii.ascii_dec a c), (Ascii.ascii_dec b c); congruence.
Qed.

Lemma In_extract_zone_names (response : Tag) (zone_type name : string) :
  In name (_extract_zone_names response zone_type) <->
  exists zs zone,
    zones response = Some zs /\ In zone zs /\
    zone_name zone = Some name /\ String.prefix zone_type name = true.
Proof.
  unfold _extract_zone_names. destruct (zones response) as [zs | ].
  - rewrite in_flat_map. split.
    + intros (zone & Hin & Hname).
      destruct (zone_name zone) as [n | ] eqn:Hn; [ | contradiction].
      destruct (String.prefix zone_type n) eqn:Hp; [ | contradiction].
      destruct Hname as [<- | []]. exists zs, zone. auto.
    + intros (zs' & zone & Hzs & Hin & Hn & Hp). inversion Hzs; subst.
      exists zone. split; [exact Hin | ]. rewrite Hn, Hp. now left.
  - split; [contradiction | ]. intros (zs & zone & Hzs & _). discriminate.
Qed.


(** ** X1: the three zone categories do not overlap.

    No zone name is extracted under two of the prefixes M, L and B: the
    monitored, light and bad-signal zone lists of an object never share a
    name. *)
Theorem zone_categories_disjoint (response : Tag) (name : string) :
  ~ (In name (_extract_zone_names response "M") /\
     In name (_extract_zone_names response "L")) /\
  ~ (In name (_extract_zone_names response "M") /\
     In name (_extract_zone_names response "B")) /\
  ~ (In name (_extract_zone_names response "L") /\
     In name (_extract_zone_names response "B")).
Proof.
  repeat split; intros [H1 H2];
    apply In_extract_zone_names in H1 as (? & ? & _ & _ & _ & P1);
    apply In_extract_zone_names in H2 as (? & ? & _ & _ & _ & P2);
    pose proof (prefix_letter _ _ _ P1 P2); discriminate.
Qed.

Lemma extract_tms_loop_spec (streams : list Stream) :
  forall seen max_timestamp,
    match max_timestamp with
    | None => seen = []
    | Some m => In m seen /\ forall t', In t' seen -> (m <? t')%float = false
    end ->
    let stamps :=
      (seen ++ flat_map
                 (fun stream =>
                    if is_pos_stream stream then
                      match s_at stream with
                      | Value t => [t]
                      | _ => []
                      end
                    else []) streams)%list in
    match _extract_tms_loop streams max_timestamp with
    | None => stamps = []
    | Some m => In m stamps /\ forall t', In t' stamps -> (m <? t')%float = false
    end.
Proof.
  induction streams as [ | stream rest IH]; simpl; intros seen max_timestamp H.
  - rewrite app_nil_r. exact H.
  - destruct (is_pos_stream stream); [ | exact (IH seen max_timestamp H)].
    destruct (s_at stream) as [ | | t]; try exact (IH seen max_timestamp H).
    simpl.
    replace (seen ++ t :: flat_map _ rest)%list
      with ((seen ++ [t]) ++ flat_map
              (fun stream =>
                 if is_pos_stream stream then
                   match s_at stream with
                   | Value t => [t]
                   | _ => []
                   end
                 else []) rest)%list
      by (rewrite <- app_assoc; reflexivity).
    apply IH.
    destruct max_timestamp as [m | ].
    + destruct H as [Hin Hmax].
      destruct (m <? t)%float eqn:Hlt.
      * split; [apply in_or_app; right; now left | ].
        intros t' Ht'. apply in_app_or in Ht' as [Ht' | [<- | []]].
        -- destruct (t <? t')%float eqn:E; [ | reflexivity].
           rewrite <- (Hmax t' Ht'). symmetry. now apply (ltb_trans m t t').
        -- apply ltb_irrefl.
      * split; [apply in_or_app; now left | ].
        intros t' Ht'. apply in_app_or in Ht' as [Ht' | [<- | []]].
        -- now apply Hmax.
        -- exact Hlt.
    + subst seen. simpl. split; [now left | ].
      intros t' [<- | []]. apply ltb_irrefl.
Qed.

(** ** X2: the timestamp of a record is its latest position timestamp.

    [_extract_tms] returns [None] exactly when no position stream ([posX]
    or [posY]) carries a timestamp that [strptime] accepts; otherwise it
    returns one of these timestamps, and none of them is greater. *)
Theorem extract_tms_latest (response : Tag) :
  match _extract_tms response with
  | None => position_stamps response = []
  | Some t =>
      In t (position_stamps response) /\
      forall t', In t' (position_stamps response) -> (t <? t')%float = false
  end.
Proof.
  unfold _extract_tms, position_stamps.
  exact (extract_tms_loop_spec (get_list (datastreams response)) [] None
           eq_refl).
Qed.

(** ** X3: what [_extract_pos] returns.

    When [_extract_pos] returns a number, a stream of the record has the
    requested id and that number as its current value; when it returns
    [None], every stream of the record has an id and none has the
    requested one.  When it raises [KeyError], a stream of the record has
    no id, or has the requested id and no current value; when it raises
    [AttributeError], a stream with the requested id has a current value
    that is not a string; when it raises [ValueError], a stream with the
    requested id has a string that [float] rejects. *)
Theorem extract_pos_result (response : Tag) (pos_id : string) :
  match _extract_pos response pos_id with
  | Ok (Some v) =>
      exists stream,
        In stream (get_list (datastreams response)) /\
        s_id stream = Some pos_id /\ current_value stream = Number v
  | Ok None =>
      forall stream,
        In stream (get_list (datastreams response)) ->
        s_id stream <> Some pos_id /\ s_id stream <> None
  | Raise KeyError =>
      exists stream,
        In stream (get_list (datastreams response)) /\
        (s_id stream = None \/
         (s_id stream = Some pos_id /\ current_value stream = Missing))
  | Raise AttributeError =>
      exists stream,
        In stream (get_list (datastreams response)) /\
        s_id stream = Some pos_id /\ current_value stream = NotAString
  | Raise ValueError =>
      exists stream,
        In stream (get_list (datastreams response)) /\
        s_id stream = Some pos_id /\ current_value stream = NotANumber
  | Raise _ => True
  end.
Proof.
  unfold _extract_pos.
  induction (get_list (datastreams response)) as [ | stream rest IH]; simpl.
  - intros stream [].
  - destruct (s_id stream) as [i | ] eqn:Hid.
    + destruct (String.eqb_spec i pos_id) as [-> | Hne].
      * destruct (current_value stream) as [ | | | v] eqn:Hv;
          exists stream; auto.
      * destruct (_extract_pos_loop rest pos_id) as [[v | ] | e].
        -- destruct IH as (s & Hin & H). exists s. auto.
        -- intros s [<- | Hin]; [ | now apply IH].
           rewrite Hid. split; congruence.
        -- destruct e; try exact I;
             destruct IH as (s & Hin & H); exists s; auto.
    + exists stream. auto.
Qed.

End ReadingFacts.

(* ===================================================================== *)
(** * Further facts on the update engine *)
(* ===================================================================== *)

Lemma SFsub_of_equal (x y : spec_float) :
  SFcompare x y = Some Eq ->
  SFsub prec emax y x = S754_nan \/ exists s, SFsub prec emax y x = S754_zero s.
Proof.
  destruct x as [sx | sx | | sx mx ex], y as [sy | sy | | sy my ey]; simpl;
    try discriminate;
    try (destruct sx; discriminate);
    try (destruct sy; discriminate).
  - intros _. right. destruct sy, sx; eauto.
  - destruct sx, sy; try discriminate; auto.
  - intros H.
    assert (Heq : sx = sy /\ ex = ey /\ mx = my).
    { destruct sx, sy; try discriminate;
        destruct (Z.compare_spec ex ey); try discriminate;
        rewrite Pos.compare_cont_spec in H; simpl in H;
        destruct (Pos.compare_spec mx my); try discriminate; auto. }
    destruct Heq as (-> & -> & ->).
    rewrite Z.min_id. unfold shl_align. rewrite Z.sub_diag.
    cbn [fst]. replace (cond_Zopp sy (Z.pos my) - cond_Zopp sy (Z.pos my))
      with 0 by (now rewrite Z.sub_diag).
    simpl. eauto.
Qed.

(** The difference of two floats that compare equal is a zero or NaN. *)
Lemma sub_of_equal (a b : float) :
  (a =? b)%float = true ->
  (b - a)%float = zero \/ (b - a)%float = neg_zero \/ (b - a)%float = nan.
Proof.
  rewrite eqb_spec. unfold SFeqb.
  destruct (SFcompare (Prim2SF a) (Prim2SF b)) as [[ | | ] | ] eqn:E;
    try discriminate.
  intros _. apply SFsub_of_equal in E.
  fold SF64sub in E. rewrite <- sub_spec in E.
  rewrite <- (SF2Prim_Prim2SF (b - a)).
  destruct E as [-> | ([ | ] & ->)]; simpl; auto.
Qed.

Section UpdateFacts.

Import PyFloat geometricFunctions dataProcessing config Outcome Reading.
Local Open Scope string_scope.

Variable libm : PyFloat.Libm.

(** A candidate equal to the prior position is never farther than the
    threshold. *)
Lemma equal_position_not_moved (xv yv pxv pyv : float) (dist : float) :
  (xv =? pxv)%float = true -> (yv =? pyv)%float = true ->
  calculate_distance libm (Some (Some xv, Some yv)) (Some (Some pxv, Some pyv))
    = Ok dist ->
  (POS_FLUCTUATION_FILTER <=? dist)%float = false.
Proof.
  intros Hx Hy. unfold calculate_distance. simpl.
  destruct (sub_of_equal _ _ Hx) as [-> | [-> | ->]];
    destruct (sub_of_equal _ _ Hy) as [-> | [-> | ->]];
    vm_compute; intros H; inversion H; reflexivity.
Qed.

Lemma calculate_heading_incomplete (c1 c2 : option Position) :
  incomplete c1 \/ incomplete c2 ->
  calculate_heading libm c1 c2 = Raise TypeError.
Proof.
  intros H. unfold calculate_heading.
  destruct c1 as [[[x1 | ] [y1 | ]] | ], c2 as [[[x2 | ] [y2 | ]] | ];
    simpl in *; try reflexivity.
  destruct H as [[H | H] | [H | H]]; discriminate.
Qed.

Lemma calculate_distance_incomplete (c1 c2 : option Position) (dist : float) :
  incomplete c1 \/ incomplete c2 ->
  calculate_distance libm c1 c2 <> Ok dist.
Proof.
  intros H. unfold calculate_distance.
  destruct c1 as [[[x1 | ] [y1 | ]] | ], c2 as [[[x2 | ] [y2 | ]] | ];
    simpl in *; try discriminate;
    try (destruct (pow2 libm _); simpl; discriminate).
  destruct H as [[H | H] | [H | H]]; discriminate.
Qed.

(** ** X4: no geometry without both positions.

    When one of the two positions is [None] or has a coordinate that is
    [None], [calculate_heading] and [calculate_angle] raise [TypeError],
    and [calculate_distance] and [calculate_speed] raise as well: none of
    the four returns a value. *)
Theorem geometry_needs_both_positions (c1 c2 : option Position) :
  incomplete c1 \/ incomplete c2 ->
  calculate_heading libm c1 c2 = Raise TypeError /\
  (forall h, calculate_angle libm c1 c2 h = Raise TypeError) /\
  (forall dist, calculate_distance libm c1 c2 <> Ok dist) /\
  (forall t1 t2 s, calculate_speed libm c1 t1 c2 t2 <> Ok s).
Proof.
  intros H.
  pose proof (calculate_heading_incomplete _ _ H) as Hh.
  pose proof (fun dist => calculate_distance_incomplete _ _ dist H) as Hd.
  split; [exact Hh | ]. split; [ | split; [exact Hd | ]].
  - intros h. unfold calculate_angle. rewrite Hh.
    destruct c1; simpl; [ | reflexivity]. destruct c2; reflexivity.
  - intros t1 t2 s. unfold calculate_speed.
    destruct (calculate_distance libm c1 c2) as [dist | e]; simpl;
      [ | discriminate].
    exfalso. now apply (Hd dist).
Qed.

(** What a completed update leaves. *)
Lemma updateObject_inv (obj : TagState) (data : Tag) (obj' : TagState) :
  updateObject libm obj data = Ok obj' ->
  aka obj' = aka obj /\ refreshed obj' data /\ vct obj' = [] /\
  ((retained obj obj' /\ spd obj' = spd obj /\ hdg obj' = hdg obj) \/
   (his obj' = {| his_pos := pos obj; his_tms := tms obj |} /\
    tms obj' = _extract_tms data /\
    (exists x y, pos obj' = Some (x, y)) /\
    (exists s, spd obj' = Some s))).
Proof.
  unfold updateObject. intros H.
  apply bind_Ok in H as (m & Hm & H).
  apply bind_Ok in H as (obj1 & Hc & H).
  inversion H; subst; clear H. simpl.
  destruct m.
  - apply commit_inv in Hc
      as (x & y & s & _ & _ & _ & Hpos & Htms & Hhis & Hspd & Haka & _).
    split; [exact Haka | ]. split; [apply update_zones_refreshed | ].
    split; [reflexivity | ]. right.
    rewrite Hpos, Htms, Hhis, Hspd. repeat split; eauto.
  - inversion Hc; subst.
    split; [reflexivity | ]. split; [apply update_zones_refreshed | ].
    split; [reflexivity | ]. left. repeat split.
Qed.

(** ** X5: the shape of every completed update.

    Whenever [updateObject] returns, the alias is unchanged, the three
    zone lists are those of the record and the vectors are empty.
    Position, timestamp and history change together or not at all:
    either they, the speed and the heading are all as before, or the
    history holds the prior position and timestamp, the timestamp is the
    record's and the speed has been set. *)
Theorem update_shape (obj : TagState) (data : Tag) (obj' : TagState) :
  updateObject libm obj data = Ok obj' ->
  aka obj' = aka obj /\ refreshed obj' data /\ vct obj' = [] /\
  ((retained obj obj' /\ spd obj' = spd obj /\ hdg obj' = hdg obj) \/
   (his obj' = {| his_pos := pos obj; his_tms := tms obj |} /\
    tms obj' = _extract_tms data /\
    (exists x y, pos obj' = Some (x, y)) /\
    (exists s, spd obj' = Some s))).
Proof. apply updateObject_inv. Qed.

(** ** X6: a committed update always recomputes the heading.

    When the test of [updateObject] holds and the update returns, the new
    heading is the bearing [calculate_heading] gives from the position
    moved into the history to the new position: the branch that keeps the
    old heading is never taken, since a candidate equal to the prior
    position is at a distance of 0 or NaN, which the test rejects. *)
Theorem committed_update_heading (obj : TagState) (data : Tag) (obj' : TagState) :
  moved libm obj data = Ok true ->
  updateObject libm obj data = Ok obj' ->
  exists h,
    calculate_heading libm (his_pos (his obj')) (pos obj') = Ok h /\
    hdg obj' = Some h.
Proof.
  intros Hm Hu.
  rewrite (updateObject_moved _ _ _ Hm) in Hu.
  apply bind_Ok in Hu as (obj1 & Hc & Hu).
  inversion Hu; subst; clear Hu. simpl.
  unfold moved in Hm.
  apply bind_Ok in Hm as (x & Hx & Hm).
  apply bind_Ok in Hm as (y & Hy & Hm).
  apply bind_Ok in Hm as (dist & Hd & Hm).
  unfold commit in Hc. rewrite Hx, Hy in Hc. simpl in Hc.
  apply bind_Ok in Hc as (s & _ & Hc).
  apply bind_Ok in Hc as (h' & Hh & Hc).
  inversion Hc; subst; clear Hc. simpl.
  destruct (pos obj) as [[px py] | ] eqn:Hp; [ | discriminate Hd].
  destruct (position_eqb (x, y) (px, py)) eqn:E; simpl in Hh.
  - exfalso. unfold position_eqb, coord_eqb in E. simpl in E.
    apply andb_prop in E as [Ex Ey].
    destruct x as [xv | ], px as [pxv | ]; try discriminate;
      destruct y as [yv | ], py as [pyv | ]; try discriminate;
      try (apply calculate_distance_incomplete in Hd; [contradiction | ];
           simpl; tauto).
    rewrite (equal_position_not_moved _ _ _ _ _ Ex Ey Hd) in Hm.
    discriminate.
  - apply bind_Ok in Hh as (h & Hh & Hh').
    inversion Hh'; subst. eauto.
Qed.

Lemma updateObject_aka (obj : TagState) (data : Tag) (obj' : TagState) :
  updateObject libm obj data = Ok obj' -> aka obj' = aka obj.
Proof. intros H. now apply updateObject_inv in H. Qed.

End UpdateFacts.

(* ===================================================================== *)
(** * A report that repeats the stored position *)
(* ===================================================================== *)

Lemma SFcompare_refl (x : spec_float) :
  x <> S754_nan -> SFcompare x x = Some Eq.
Proof.
  destruct x as [s | s | | s m e]; simpl; try congruence.
  - now destruct s.
  - intros _. destruct s; rewrite Z.compare_refl;
      rewrite Pos.compare_cont_refl; reflexivity.
Qed.

(** A float minus itself is a zero, or NaN (for NaN and the infinities). *)
Lemma sub_self (x : float) :
  (x - x)%float = zero \/ (x - x)%float = neg_zero \/ (x - x)%float = nan.
Proof.
  destruct (x =? x)%float eqn:E; [now apply sub_of_equal | ].
  rewrite eqb_spec in E. unfold SFeqb in E.
  assert (Hnan : Prim2SF x = S754_nan).
  { destruct (Prim2SF x) as [s | s | | s m e] eqn:Ex; try reflexivity;
      rewrite SFcompare_refl in E; discriminate. }
  right; right. rewrite <- (SF2Prim_Prim2SF (x - x)).
  rewrite sub_spec. unfold SF64sub. rewrite Hnan. reflexivity.
Qed.

Section Stationary.

Import PyFloat geometricFunctions dataProcessing config Outcome Reading.
Local Open Scope string_scope.

Variable libm : PyFloat.Libm.

Lemma calculate_distance_self (c1 c2 : option Position) (xv yv : float) :
  c1 = Some (Some xv, Some yv) -> c2 = Some (Some xv, Some yv) ->
  exists dist,
    calculate_distance libm c1 c2 = Ok dist /\
    (POS_FLUCTUATION_FILTER <=? dist)%float = false.
Proof.
  intros -> ->. unfold calculate_distance. simpl.
  destruct (sub_self xv) as [-> | [-> | ->]];
    destruct (sub_self yv) as [-> | [-> | ->]];
    vm_compute; eexists; split; reflexivity.
Qed.

(** ** X7: a repeated position is never committed.

    When the record carries exactly the coordinates the object already
    holds (both known), [updateObject] returns and keeps position,
    timestamp, history, speed and heading, whatever the record's
    timestamp: only the zone lists are refreshed and the vectors
    emptied.  So an asset that has stopped keeps the speed and the
    timestamp of its last committed move. *)
Theorem repeated_position_retained (obj : TagState) (data : Tag)
  (xv yv : float) :
  pos obj = Some (Some xv, Some yv) ->
  _extract_pos data "posX" = Ok (Some xv) ->
  _extract_pos data "posY" = Ok (Some yv) ->
  exists obj',
    updateObject libm obj data = Ok obj' /\
    retained obj obj' /\ spd obj' = spd obj /\ hdg obj' = hdg obj /\
    refreshed obj' data /\ vct obj' = [].
Proof.
  intros Hpos Hx Hy.
  exists (update_zones obj data).
  unfold updateObject, moved. rewrite Hx, Hy, Hpos. cbn [bind].
  match goal with
  | |- context [calculate_distance libm ?c1 ?c2] =>
      destruct (calculate_distance_self c1 c2 xv yv eq_refl eq_refl)
        as (dist & Hd & Hle);
      rewrite Hd
  end.
  cbn [bind]. rewrite Hle. simpl.
  split; [reflexivity | ]. split; [repeat split | ].
  split; [reflexivity | ]. split; [reflexivity | ].
  split; [apply update_zones_refreshed | reflexivity].
Qed.

(** ** X8: the first update of an object, from the record that created it.

    An object that [createObject] has made from a record is returned
    unchanged by [updateObject] on that same record when both
    coordinates were found; when one of them was not (the record has no
    [posX] or no [posY] stream), that update raises [TypeError]. *)
Theorem update_after_creation (id : Z) (data : Tag) (obj : TagState) :
  createObject id data = Ok obj ->
  match pos obj with
  | Some (Some _, Some _) => updateObject libm obj data = Ok obj
  | _ => updateObject libm obj data = Raise TypeError
  end.
Proof.
  unfold createObject. intros H.
  apply bind_Ok in H as (x & Hx & H).
  apply bind_Ok in H as (y & Hy & H).
  destruct (alias data) as [a | ]; [ | discriminate].
  inversion H; subst; clear H. cbn [pos].
  unfold updateObject, moved. rewrite Hx, Hy. cbn [bind pos].
  destruct x as [xv | ], y as [yv | ].
  - match goal with
    | |- context [calculate_distance libm ?c1 ?c2] =>
        destruct (calculate_distance_self c1 c2 xv yv eq_refl eq_refl)
          as (dist & Hd & Hle);
        rewrite Hd
    end.
    cbn [bind]. rewrite Hle. reflexivity.
  - unfold calculate_distance. simpl.
    destruct (sub_self xv) as [-> | [-> | ->]]; reflexivity.
  - reflexivity.
  - reflexivity.
Qed.

End Stationary.

(* ===================================================================== *)
(** * Further facts on the registry *)
(* ===================================================================== *)

Section RegistryLife.

Import PyFloat geometricFunctions dataProcessing config Outcome Reading.
Import lightsController awacs_server Handling.

Variable libm : PyFloat.Libm.

(** An object without a known x coordinate makes every update raise. *)
Lemma updateObject_unlocated (obj : TagState) (data : Tag) (obj' : TagState) :
  pos obj = None \/ (exists y, pos obj = Some (None, y)) ->
  updateObject libm obj data <> Ok obj'.
Proof.
  intros Hp. unfold updateObject, moved.
  destruct (_extract_pos data "posX"%string) as [x | e]; simpl; [ | discriminate].
  destruct (_extract_pos data "posY"%string) as [y | e]; simpl; [ | discriminate].
  destruct Hp as [-> | (py & ->)]; simpl; [discriminate | ].
  destruct x; discriminate.
Qed.

Lemma update_loop_app (good : list Tag) :
  forall rest obj_dict,
    update_loop libm (good ++ rest) obj_dict =
      match update_loop libm good obj_dict with
      | (obj_dict1, None) => update_loop libm rest obj_dict1
      | failed => failed
      end.
Proof.
  induction good as [ | result good' IH]; simpl; intros rest obj_dict;
    [reflexivity | ].
  destruct (to_int (tag_id result)) as [result_id | e]; [ | reflexivity].
  destruct (dict_get result_id obj_dict) as [obj | ]; [ | apply IH].
  destruct (updateObject libm obj result); [apply IH | reflexivity].
Qed.

Lemma update_loop_failed (result : Tag) :
  forall obj_dict e,
    snd (update_loop libm [result] obj_dict) = Some e ->
    update_loop libm [result] obj_dict = (obj_dict, Some e).
Proof.
  intros obj_dict e. simpl.
  destruct (to_int (tag_id result)) as [result_id | e0]; simpl;
    [ | now intros [= ->]].
  destruct (dict_get result_id obj_dict) as [obj | ]; simpl;
    [ | discriminate].
  destruct (updateObject libm obj result); simpl;
    [discriminate | now intros [= ->]].
Qed.

Lemma initialize_loop_app (good : list Tag) :
  forall rest obj_dict,
    initialize_loop (good ++ rest) obj_dict =
      match initialize_loop good obj_dict with
      | (obj_dict1, None) => initialize_loop rest obj_dict1
      | failed => failed
      end.
Proof.
  induction good as [ | result good' IH]; simpl; intros rest obj_dict;
    [reflexivity | ].
  destruct (to_int (tag_id result)) as [result_id | e]; simpl;
    [ | reflexivity].
  destruct (createObject result_id result); [apply IH | reflexivity].
Qed.

(** ** X9: an object without a position is never updated.

    An object of the registry whose position is [None], or whose x
    coordinate is [None] (as after creation from a record without a
    [posX] stream), is the same object after [update_objects], whatever
    the snapshot holds: its update raises before anything is stored, so
    that neither its position nor its zones ever change. *)
Theorem unlocated_object_never_updated (obj_dict : Registry)
  (fetched : option Response) (i : Z) (obj : TagState) :
  dict_get i obj_dict = Some obj ->
  pos obj = None \/ (exists y, pos obj = Some (None, y)) ->
  dict_get i (update_objects libm obj_dict fetched) = Some obj.
Proof.
  intros Hget Hp. unfold update_objects, update_try.
  destruct fetched as [response | ]; [ | exact Hget].
  revert obj_dict Hget.
  induction (get_list (results response)) as [ | result rest IH]; simpl;
    intros obj_dict Hget; [exact Hget | ].
  destruct (to_int (tag_id result)) as [result_id | e]; [ | exact Hget].
  destruct (dict_get result_id obj_dict) as [o | ] eqn:Ho; [ | now apply IH].
  destruct (updateObject libm o result) as [o' | e] eqn:Hu; [ | exact Hget].
  apply IH. destruct (Z.eq_dec result_id i) as [-> | Hne].
  - rewrite Hget in Ho. inversion Ho; subst.
    now apply updateObject_unlocated in Hu.
  - now rewrite dict_get_set_ne.
Qed.

(** ** X10: an asset the snapshot does not report is left untouched.

    When the fetch fails, or no record of the snapshot carries the
    identifier, [update_objects] leaves the object of that identifier
    exactly as it was (position, timestamp, zones and vectors included). *)
Theorem unreported_object_untouched (obj_dict : Registry)
  (fetched : option Response) (i : Z) :
  (forall response t,
      fetched = Some response -> In t (get_list (results response)) ->
      tag_id t <> Value i) ->
  dict_get i (update_objects libm obj_dict fetched)
    = dict_get i obj_dict.
Proof.
  intros Habsent. unfold update_objects, update_try.
  destruct fetched as [response | ]; [ | reflexivity].
  pose proof (Habsent response) as H. clear Habsent.
  revert obj_dict.
  induction (get_list (results response)) as [ | result rest IH]; simpl;
    intros obj_dict; [reflexivity | ].
  assert (Hrest : forall t, Some response = Some response -> In t rest ->
                            tag_id t <> Value i)
    by (intros t E Ht; apply (H t E); now right).
  destruct (tag_id result) as [ | | result_id] eqn:Hid; simpl;
    try reflexivity.
  destruct (dict_get result_id obj_dict) as [o | ];
    [ | now apply IH].
  destruct (updateObject libm o result) as [o' | e]; [ | reflexivity].
  rewrite (IH Hrest). apply dict_get_set_ne. intros ->.
  apply (H result eq_refl); [now left | exact Hid].
Qed.

(** ** X11: the records after a failing one are not applied.

    When the records [good] of a snapshot are processed without an
    exception and the next record makes [update_objects] raise, the pass
    ends there, with that exception caught: it leaves what the snapshot
    cut off after the failing record would leave, whatever the records
    that follow, and every object but the one the failing record names
    is as it was after [good]. *)
Theorem update_stops_at_first_failure (good : list Tag) (bad : Tag)
  (rest : list Tag) (obj_dict obj_dict1 : Registry) (e : exn) :
  update_loop libm good obj_dict = (obj_dict1, None) ->
  snd (update_loop libm [bad] obj_dict1) = Some e ->
  update_try libm obj_dict (Some {| results := Some (good ++ bad :: rest) |})
    = update_try libm obj_dict (Some {| results := Some (good ++ [bad]) |}) /\
  snd (update_try libm obj_dict
         (Some {| results := Some (good ++ bad :: rest) |})) = Some e /\
  forall i,
    tag_id bad <> Value i ->
    dict_get i (update_objects libm obj_dict
                  (Some {| results := Some (good ++ bad :: rest) |}))
      = dict_get i obj_dict1.
Proof.
  intros Hgood Hbad. unfold update_objects. simpl.
  rewrite !update_loop_app, Hgood.
  change (bad :: rest) with ([bad] ++ rest).
  rewrite update_loop_app. rewrite (update_loop_failed _ _ _ Hbad).
  repeat split.
Qed.

(** ** X12: a failing record at start-up hides the records after it for good.

    When the records [good] of the start-up snapshot are registered
    without an exception and the next record makes [initialize_objects]
    raise (no id, no alias, a position that is not a number), the
    identifiers [main] tracks after any number of passes of its loop are
    those of [good]: the records after the failing one are never
    registered. *)
Theorem startup_failure_hides_later_records (good : list Tag) (bad : Tag)
  (rest : list Tag) (obj_dict1 : Registry) (e : exn)
  (start : Cycle) (cycles : list Cycle) (obj_dict' : Registry) :
  initialize_loop good [] = (obj_dict1, None) ->
  snd (initialize_loop [bad] obj_dict1) = Some e ->
  fetched start = Some {| results := Some (good ++ bad :: rest) |} ->
  main libm start cycles = Running obj_dict' ->
  initialize_try (fetched start) = (obj_dict1, Some e) /\
  keys obj_dict' = keys obj_dict1.
Proof.
  intros Hgood Hbad Hstart Hmain.
  assert (Hinit : initialize_try (fetched start) = (obj_dict1, Some e)).
  { rewrite Hstart. simpl. rewrite initialize_loop_app, Hgood.
    simpl in *.
    destruct (to_int (tag_id bad)) as [result_id | e0]; simpl in *;
      [ | now inversion Hbad].
    destruct (createObject result_id bad); simpl in *;
      [discriminate | now inversion Hbad]. }
  split; [exact Hinit | ].
  unfold main in Hmain.
  destruct (snd (set_all_lights (gpio start) false)); [discriminate | ].
  destruct (snd (set_all_lights (gpio start) true)); [discriminate | ].
  rewrite (loop_keys _ _ _ _ Hmain). unfold initialize_objects.
  now rewrite Hinit.
Qed.

Lemma update_loop_aka (results : list Tag) :
  forall obj_dict i obj,
    dict_get i obj_dict = Some obj ->
    exists obj',
      dict_get i (fst (update_loop libm results obj_dict)) = Some obj' /\
      aka obj' = aka obj.
Proof.
  induction results as [ | result rest IH]; simpl; intros obj_dict i obj Hget;
    [eauto | ].
  destruct (to_int (tag_id result)) as [result_id | e]; simpl; [ | eauto].
  destruct (dict_get result_id obj_dict) as [o | ] eqn:Ho; [ | now apply IH].
  destruct (updateObject libm o result) as [o' | e] eqn:Hu; simpl; [ | eauto].
  destruct (Z.eq_dec result_id i) as [-> | Hne].
  - rewrite Hget in Ho. inversion Ho; subst.
    destruct (IH (dict_set i o' obj_dict) i o' (dict_get_set_eq _ _ _))
      as (obj' & Hget' & Haka).
    exists obj'. split; [exact Hget' | ].
    rewrite Haka. now apply (updateObject_aka libm) in Hu.
  - apply IH. now rewrite dict_get_set_ne.
Qed.

Lemma create_vectors_loop_aka (ids : list Z) :
  forall obj_dict i obj,
    dict_get i obj_dict = Some obj ->
    exists obj',
      dict_get i (fst (create_vectors_loop libm ids obj_dict)) = Some obj' /\
      aka obj' = aka obj.
Proof.
  induction ids as [ | this_id rest IH]; simpl; intros obj_dict i obj Hget;
    [eauto | ].
  destruct (dict_get this_id obj_dict) as [this_obj | ] eqn:Ho; simpl;
    [ | eauto].
  destruct (vectors_of libm this_id this_obj obj_dict) as [vs | e]; simpl;
    [ | eauto].
  destruct (Z.eq_dec this_id i) as [-> | Hne].
  - rewrite Hget in Ho. inversion Ho; subst.
    apply (IH _ i (set_vct this_obj vs)). apply dict_get_set_eq.
  - apply IH. now rewrite dict_get_set_ne.
Qed.

(** ** X13: the alias of a tracked asset never changes.

    An object that is in the registry at some point is still in it, under
    the same identifier and with the same alias, after any number of
    passes of the loop of [main]. *)
Theorem alias_never_changes (cycles : list Cycle)
  (obj_dict obj_dict' : Registry) (i : Z) (obj : TagState) :
  loop libm cycles obj_dict = Running obj_dict' ->
  dict_get i obj_dict = Some obj ->
  exists obj', dict_get i obj_dict' = Some obj' /\ aka obj' = aka obj.
Proof.
  revert obj_dict obj.
  induction cycles as [ | env rest IH]; simpl; intros obj_dict obj Hrun Hget.
  - inversion Hrun; subst. eauto.
  - destruct (cycle libm env obj_dict) as [obj_dict1 | e] eqn:Hc;
      [ | discriminate].
    unfold cycle in Hc.
    destruct (snd (check_zones _ _)); [discriminate | ].
    inversion Hc; subst; clear Hc.
    assert (H1 : exists obj1,
               dict_get i (update_objects libm obj_dict (fetched env))
                 = Some obj1 /\ aka obj1 = aka obj).
    { unfold update_objects, update_try.
      destruct (fetched env); [now apply update_loop_aka | eauto]. }
    destruct H1 as (obj1 & Hget1 & Haka1).
    destruct (create_vectors_loop_aka
                (keys (update_objects libm obj_dict (fetched env)))
                _ i obj1 Hget1) as (obj2 & Hget2 & Haka2).
    destruct (IH _ obj2 Hrun Hget2) as (obj' & Hget' & Haka').
    exists obj'. split; [exact Hget' | congruence].
Qed.

End RegistryLife.

(* ===================================================================== *)
(** * Further facts on the vector engine *)
(* ===================================================================== *)

Section VectorFacts.

Import PyFloat geometricFunctions dataProcessing config Outcome Reading.
Import lightsController awacs_server Handling.

Variable libm : PyFloat.Libm.

Lemma same_but_vct_refl (obj : TagState) : same_but_vct obj obj.
Proof. repeat split. Qed.

Lemma same_but_vct_trans (a b c : TagState) :
  same_but_vct a b -> same_but_vct b c -> same_but_vct a c.
Proof. unfold same_but_vct. intuition congruence. Qed.

Lemma same_but_vct_set_vct (obj : TagState) (vs : list Vector) :
  same_but_vct obj (set_vct obj vs).
Proof. repeat split. Qed.

Lemma same_registry_refl (obj_dict : Registry) : same_registry obj_dict obj_dict.
Proof.
  induction obj_dict; constructor; auto using same_but_vct_refl.
Qed.

Lemma same_registry_trans (a b c : Registry) :
  same_registry a b -> same_registry b c -> same_registry a c.
Proof.
  intros Hab. revert c. induction Hab as [ | x y a b [Hk Ho] Hab IH];
    intros c Hbc; inversion Hbc as [ | ? z ? c' [Hk' Ho'] Hbc']; subst;
    constructor.
  - split; [congruence | now apply (same_but_vct_trans _ (snd y))].
  - now apply IH.
Qed.

Lemma same_registry_dict_set (i : Z) (obj obj' : TagState) (obj_dict : Registry) :
  dict_get i obj_dict = Some obj -> same_but_vct obj obj' ->
  same_registry obj_dict (dict_set i obj' obj_dict).
Proof.
  induction obj_dict as [ | [k v] rest IH]; simpl; [discriminate | ].
  destruct (Z.eqb_spec k i) as [-> | Hne].
  - intros [= ->] Hs. constructor; [now split | apply same_registry_refl].
  - intros Hget Hs. constructor; [split; auto using same_but_vct_refl | ].
    now apply IH.
Qed.

(** [create_vector] reads the position, the heading and the bad-signal
    zones of its arguments, and nothing else. *)
Lemma create_vector_same (a a' b b' : TagState) :
  same_but_vct a a' -> same_but_vct b b' ->
  create_vector libm a' b' = create_vector libm a b.
Proof.
  intros (_ & Hpa & _ & _ & _ & Hha & _ & _ & Hba)
         (_ & Hpb & _ & _ & _ & _ & _ & _ & Hbb).
  unfold create_vector. now rewrite Hpa, Hha, Hba, Hpb, Hbb.
Qed.

Lemma vectors_of_same (this_id : Z) (a a' : TagState) (obj_dict obj_dict' : Registry) :
  same_but_vct a a' -> same_registry obj_dict obj_dict' ->
  vectors_of libm this_id a' obj_dict' = vectors_of libm this_id a obj_dict.
Proof.
  intros Ha Hreg.
  induction Hreg as [ | [k v] [k' v'] rest rest' [Hk Hv] Hreg IH]; simpl;
    [reflexivity | ].
  simpl in Hk, Hv. subst k'.
  destruct (k =? this_id); [exact IH | ].
  now rewrite (create_vector_same _ _ _ _ Ha Hv), IH.
Qed.

Lemma dict_set_same (i : Z) (obj : TagState) (obj_dict : Registry) :
  dict_get i obj_dict = Some obj -> dict_set i obj obj_dict = obj_dict.
Proof.
  induction obj_dict as [ | [k v] rest IH]; simpl; [discriminate | ].
  destruct (Z.eqb_spec k i) as [-> | Hne].
  - now intros [= ->].
  - intros H. now rewrite IH.
Qed.

Lemma dict_get_In (i : Z) (obj : TagState) (obj_dict : Registry) :
  dict_get i obj_dict = Some obj -> In (i, obj) obj_dict.
Proof.
  induction obj_dict as [ | [k v] rest IH]; simpl; [discriminate | ].
  destruct (Z.eqb_spec k i) as [-> | Hne].
  - intros [= ->]. now left.
  - intros H. right. now apply IH.
Qed.

(** The loop of [create_vectors], whatever its outcome, leaves the objects
    outside [ids] as they were and changes vectors only. *)
Lemma create_vectors_loop_frame (ids : list Z) :
  forall obj_dict obj_dict1 e,
    create_vectors_loop libm ids obj_dict = (obj_dict1, e) ->
    same_registry obj_dict obj_dict1 /\
    forall i, ~ In i ids -> dict_get i obj_dict1 = dict_get i obj_dict.
Proof.
  induction ids as [ | this_id rest IH]; simpl; intros obj_dict obj_dict1 e H.
  - inversion H; subst. split; [apply same_registry_refl | reflexivity].
  - destruct (dict_get this_id obj_dict) as [this_obj | ] eqn:Hget.
    + destruct (vectors_of libm this_id this_obj obj_dict) as [vs | e'].
      * destruct (IH _ _ _ H) as [Hsame Hframe]. split.
        -- eapply same_registry_trans; [ | exact Hsame].
           apply (same_registry_dict_set _ this_obj); auto.
           apply same_but_vct_set_vct.
        -- intros i Hi. rewrite Hframe by tauto.
           apply dict_get_set_ne. intros ->. apply Hi. now left.
      * inversion H; subst. split; [apply same_registry_refl | reflexivity].
    + inversion H; subst. split; [apply same_registry_refl | reflexivity].
Qed.

(** Each identifier the loop has passed holds the vectors computed from
    the registry the loop started with. *)
Lemma create_vectors_loop_content (ids : list Z) :
  forall obj_dict obj_dict1,
    NoDup ids ->
    create_vectors_loop libm ids obj_dict = (obj_dict1, None) ->
    forall i, In i ids ->
      exists obj vs,
        dict_get i obj_dict = Some obj /\
        vectors_of libm i obj obj_dict = Ok vs /\
        dict_get i obj_dict1 = Some (set_vct obj vs).
Proof.
  induction ids as [ | this_id rest IH]; simpl;
    intros obj_dict obj_dict1 Hids H i Hi; [contradiction | ].
  inversion Hids as [ | ? ? Hnotin Hrest]; subst.
  destruct (dict_get this_id obj_dict) as [this_obj | ] eqn:Hget;
    [ | discriminate].
  destruct (vectors_of libm this_id this_obj obj_dict) as [vs | e'] eqn:Hvs;
    [ | discriminate].
  destruct (create_vectors_loop_frame _ _ _ _ H) as [_ Hframe].
  destruct (Z.eq_dec this_id i) as [-> | Hne].
  - exists this_obj, vs. repeat split; auto.
    rewrite (Hframe i Hnotin). apply dict_get_set_eq.
  - destruct Hi as [Hi | Hi]; [contradiction | ].
    destruct (IH _ _ Hrest H i Hi) as (obj & vs' & Hobj & Hvs' & Hget').
    rewrite dict_get_set_ne in Hobj by assumption.
    exists obj, vs'. repeat split; auto.
    rewrite <- Hvs'. symmetry. apply vectors_of_same.
    + apply same_but_vct_refl.
    + apply (same_registry_dict_set _ this_obj); auto.
      apply same_but_vct_set_vct.
Qed.

Lemma vectors_of_Forall2 (this_id : Z) (this_obj : TagState) (items : Registry) :
  forall vs,
    vectors_of libm this_id this_obj items = Ok vs ->
    Forall2 (fun v kv => create_vector libm this_obj (snd kv) = Ok v)
      vs (others this_id items).
Proof.
  unfold others.
  induction items as [ | [other_id other_obj] rest IH]; simpl; intros vs H.
  - inversion H. constructor.
  - destruct (other_id =? this_id); simpl; [now apply IH | ].
    apply bind_Ok in H as (v & Hv & H).
    apply bind_Ok in H as (vs' & Hvs & H).
    inversion H; subst. constructor; [exact Hv | now apply IH].
Qed.

(** ** X14: what the vectors of an object are.

    When [create_vectors] runs to completion, each object is the object
    it was, with new vectors: its n-th vector is the one [create_vector]
    gives from it to the n-th of the other objects of the registry, in the
    order of the registry.  Nothing but the vectors changes. *)
Theorem create_vectors_content (obj_dict obj_dict' : Registry) (i : Z)
  (obj' : TagState) :
  NoDup (keys obj_dict) ->
  create_vectors_try libm obj_dict = (obj_dict', None) ->
  dict_get i obj_dict' = Some obj' ->
  exists obj,
    dict_get i obj_dict = Some obj /\
    obj' = set_vct obj (vct obj') /\
    Forall2 (fun v kv => create_vector libm obj (snd kv) = Ok v)
      (vct obj') (others i obj_dict).
Proof.
  intros Hnd Hdone Hget'. unfold create_vectors_try in Hdone.
  assert (Hin : In i (keys obj_dict)).
  { rewrite <- (create_vectors_loop_keys libm (keys obj_dict) obj_dict).
    rewrite Hdone. apply dict_get_In_keys. eauto. }
  destruct (create_vectors_loop_content _ _ _ Hnd Hdone i Hin)
    as (obj & vs & Hobj & Hvs & Hget).
  rewrite Hget in Hget'. inversion Hget'; subst; clear Hget'.
  exists obj. split; [exact Hobj | ]. split; [reflexivity | ].
  now apply vectors_of_Forall2.
Qed.

Lemma create_vector_incomplete (obj other_obj : TagState) (v : Vector) :
  incomplete (pos obj) \/ incomplete (pos other_obj) ->
  create_vector libm obj other_obj <> Ok v.
Proof.
  intros H Hv. unfold create_vector in Hv.
  apply bind_Ok in Hv as (dir & _ & Hv).
  apply bind_Ok in Hv as (radius & Hr & _).
  now apply (calculate_distance_incomplete libm) in Hr.
Qed.

Lemma vectors_of_raises (this_id : Z) (this_obj : TagState) (items : Registry)
  (j : Z) (other_obj : TagState) :
  In (j, other_obj) items -> j <> this_id ->
  (forall v, create_vector libm this_obj other_obj <> Ok v) ->
  forall vs, vectors_of libm this_id this_obj items <> Ok vs.
Proof.
  intros Hin Hne Hfail.
  induction items as [ | [k o] rest IH]; simpl; [contradiction | ].
  intros vs H. destruct Hin as [[= -> ->] | Hin].
  - destruct (Z.eqb_spec j this_id); [contradiction | ].
    apply bind_Ok in H as (v & Hv & _). now apply Hfail in Hv.
  - destruct (k =? this_id); [now apply (IH Hin vs) | ].
    apply bind_Ok in H as (v & _ & H).
    apply bind_Ok in H as (vs' & Hvs & _). now apply (IH Hin vs').
Qed.

(** ** X15: one object without a position stops the vector engine.

    In a registry of two or more objects of which one has no known
    position, [create_vectors] raises while it computes the vectors of the
    first object, catches the exception and leaves the whole registry as
    it was: no object gets new vectors. *)
Theorem unlocated_object_stops_vectors (obj_dict : Registry) (i j : Z)
  (obj other_obj : TagState) :
  dict_get i obj_dict = Some obj -> incomplete (pos obj) ->
  dict_get j obj_dict = Some other_obj -> i <> j ->
  create_vectors libm obj_dict = obj_dict /\
  exists e, snd (create_vectors_try libm obj_dict) = Some e.
Proof.
  intros Hi Hinc Hj Hne. unfold create_vectors, create_vectors_try.
  destruct obj_dict as [ | [k0 o0] rest]; [discriminate | ].
  change (keys ((k0, o0) :: rest)) with (k0 :: keys rest).
  cbn [create_vectors_loop].
  assert (H0 : dict_get k0 ((k0, o0) :: rest) = Some o0)
    by (simpl; now rewrite Z.eqb_refl).
  rewrite H0.
  destruct (vectors_of libm k0 o0 ((k0, o0) :: rest)) as [vs | e] eqn:Hvs;
    [exfalso | simpl; eauto].
  destruct (Z.eq_dec k0 i) as [-> | Hk].
  - rewrite Hi in H0. inversion H0; subst.
    apply (vectors_of_raises i o0 _ j other_obj) in Hvs; auto.
    + now apply dict_get_In.
    + intros v. apply create_vector_incomplete. now left.
  - apply (vectors_of_raises k0 o0 _ i obj) in Hvs; auto.
    + now apply dict_get_In.
    + intros v. apply create_vector_incomplete. now right.
Qed.

(** A second run of the loop on the registry the first run left behaves
    as the first and changes nothing. *)
Lemma create_vectors_loop_rerun (ids : list Z) :
  forall obj_dict obj_dict1 e,
    NoDup ids ->
    create_vectors_loop libm ids obj_dict = (obj_dict1, e) ->
    create_vectors_loop libm ids obj_dict1 = (obj_dict1, e).
Proof.
  induction ids as [ | this_id rest IH]; simpl;
    intros obj_dict obj_dict1 e Hids H.
  - now inversion H.
  - inversion Hids as [ | ? ? Hnotin Hrest]; subst.
    destruct (dict_get this_id obj_dict) as [this_obj | ] eqn:Hget.
    + destruct (vectors_of libm this_id this_obj obj_dict) as [vs | e']
        eqn:Hvs.
      * destruct (create_vectors_loop_frame _ _ _ _ H) as [Hsame Hframe].
        rewrite (Hframe this_id Hnotin), dict_get_set_eq.
        assert (Hvs1 : vectors_of libm this_id (set_vct this_obj vs) obj_dict1
                       = Ok vs).
        { rewrite <- Hvs. apply vectors_of_same.
          - apply same_but_vct_set_vct.
          - eapply same_registry_trans; [ | exact Hsame].
            apply (same_registry_dict_set _ this_obj); auto.
            apply same_but_vct_set_vct. }
        rewrite Hvs1.
        change (set_vct (set_vct this_obj vs) vs) with (set_vct this_obj vs).
        rewrite dict_set_same
          by (rewrite (Hframe this_id Hnotin); apply dict_get_set_eq).
        now apply (IH _ _ _ Hrest H).
      * inversion H; subst. now rewrite Hget, Hvs.
    + inversion H; subst. now rewrite Hget.
Qed.

(** ** X16: computing the vectors twice changes nothing.

    [create_vectors] applied to the registry it has just left returns the
    same registry, and ends in the same way (normally, or with the same
    exception), also when the first run was stopped by an exception. *)
Theorem create_vectors_idempotent (obj_dict : Registry) :
  NoDup (keys obj_dict) ->
  create_vectors_try libm (create_vectors libm obj_dict)
    = create_vectors_try libm obj_dict.
Proof.
  intros Hnd. unfold create_vectors_try at 1.
  rewrite create_vectors_keys. unfold create_vectors, create_vectors_try.
  destruct (create_vectors_loop libm (keys obj_dict) obj_dict)
    as [obj_dict1 e] eqn:H.
  simpl. now apply (create_vectors_loop_rerun _ obj_dict).
Qed.

(** ** X17: a pass without news leaves the registry as it is.

    When the fetch fails or the snapshot holds no record, and the GPIO
    calls raise nothing but [requests] exceptions, a pass of the loop of
    [main] on a registry that [create_vectors] has left returns that
    registry unchanged: positions, speeds, headings, zones and vectors are
    those of the pass before. *)
Theorem pass_without_news (env : Cycle) (obj_dict : Registry) :
  NoDup (keys obj_dict) ->
  handled (gpio env) ->
  fetched env = None \/
  (exists response,
      fetched env = Some response /\ get_list (results response) = []) ->
  cycle libm env (create_vectors libm obj_dict)
    = Ok (create_vectors libm obj_dict).
Proof.
  intros Hnd Hgpio Hfetch. unfold cycle.
  assert (Hu : update_objects libm (create_vectors libm obj_dict) (fetched env)
               = create_vectors libm obj_dict).
  { unfold update_objects, update_try.
    destruct Hfetch as [-> | (response & -> & ->)]; reflexivity. }
  rewrite Hu.
  assert (Hv : create_vectors libm (create_vectors libm obj_dict)
               = create_vectors libm obj_dict).
  { unfold create_vectors at 1 3, create_vectors_try at 1.
    rewrite create_vectors_keys. unfold create_vectors, create_vectors_try.
    destruct (create_vectors_loop libm (keys obj_dict) obj_dict)
      as [obj_dict1 e] eqn:H.
    simpl. now rewrite (create_vectors_loop_rerun _ obj_dict _ e Hnd H). }
  rewrite Hv. unfold check_zones.
  now rewrite (check_zones_loop_handled _ _ _ Hgpio).
Qed.

(** ** X18: the fields of a vector.

    A vector that [create_vector] returns has the direction -1 or a
    direction from 0 to 359; the direction is -1 when both objects are in
    a bad-signal zone; the fuzzy flag is set exactly when the other object
    is in a bad-signal zone; the radius is the value of
    [calculate_distance] for the two positions. *)
Theorem vector_fields (obj other_obj : TagState) (v : Vector) :
  create_vector libm obj other_obj = Ok v ->
  (d v = -1 \/ 0 <= d v < 360) /\
  (bsz obj <> [] -> bsz other_obj <> [] -> d v = -1) /\
  (f v = true <-> bsz other_obj <> []) /\
  calculate_distance libm (pos obj) (pos other_obj) = Ok (r v).
Proof.
  intros H.
  destruct (create_vector_direction libm _ _ _ H)
    as (Hboth & Hnone & Hzero & Hrel & Hfuzzy).
  split; [ | split; [exact Hboth | split; [exact Hfuzzy | ]]].
  - destruct (hdg obj) as [h | ] eqn:Hh; [ | left; now apply Hnone].
    destruct (Z.eq_dec h 0) as [-> | Hnz]; [left; now apply Hzero | ].
    destruct (bsz obj) as [ | z zs] eqn:Hb.
    + right. destruct (Hrel h eq_refl Hnz (or_introl eq_refl))
        as (b & _ & _ & Hrange). exact Hrange.
    + destruct (bsz other_obj) as [ | z' zs'] eqn:Hb'.
      * right. destruct (Hrel h eq_refl Hnz (or_intror eq_refl))
          as (b & _ & _ & Hrange). exact Hrange.
      * left. apply Hboth; discriminate.
  - unfold create_vector in H.
    apply bind_Ok in H as (dir & _ & H).
    apply bind_Ok in H as (radius & Hr & H).
    inversion H; subst. exact Hr.
Qed.

End VectorFacts.

(* ===================================================================== *)
(** * The GPIO server and the two light controllers *)
(* ===================================================================== *)

Section Lights.

Import dataProcessing config lightsController awacs_server gpio_control.

Lemma led_get_set_eq (pin : Z) (lit : bool) (leds : Leds) :
  led_get pin (led_set pin lit leds) = Some lit.
Proof.
  induction leds as [ | [p l] rest IH]; simpl.
  - now rewrite Z.eqb_refl.
  - destruct (p =? pin) eqn:E; simpl; rewrite ?E, ?Z.eqb_refl; auto.
Qed.

Lemma led_get_set_ne (pin q : Z) (lit : bool) (leds : Leds) :
  q <> pin -> led_get q (led_set pin lit leds) = led_get q leds.
Proof.
  intros Hne. induction leds as [ | [p l] rest IH]; simpl.
  - destruct (Z.eqb_spec pin q); [congruence | reflexivity].
  - destruct (Z.eqb_spec p pin) as [-> | Hp]; simpl.
    + destruct (Z.eqb_spec pin q); [congruence | reflexivity].
    + now rewrite IH.
Qed.

Variable board : Z -> option exn.
Variable send : Reply -> option exn.

(** ** X19: which LEDs a request changes.

    Whatever the outcome of a request, [do_POST] changes no LED but the
    one of the pin the request carries, and no LED at all when [int]
    accepts no pin of the request.  A request answered with success
    carries a pin that [int] accepts and a boolean state, and leaves the
    LED of that pin in that state.  A request answered with status 400
    changes no LED and creates none.  (A request that ends by an
    exception may have switched its LED: the reply is sent last.) *)
Theorem do_POST_effect (request : Body) (leds : Leds) :
  (forall q,
      (forall pin state, request = Payload pin state -> int_of pin <> Ok q) ->
      led_get q (fst (do_POST board send request leds)) = led_get q leds) /\
  match snd (do_POST board send request leds) with
  | Ok Success =>
      exists pin state p b,
        request = Payload pin state /\ int_of pin = Ok p /\ state = JBool b /\
        led_get p (fst (do_POST board send request leds)) = Some b
  | Ok (BadRequest _) => fst (do_POST board send request leds) = leds
  | Raise _ => True
  end.
Proof.
  destruct request as [e | | pin state]; simpl;
    try (split; [reflexivity | exact I]).
  unfold answer.
  destruct (is_None pin || is_None state); simpl.
  { split; [reflexivity | ]. destruct (send _); simpl; auto. }
  destruct (int_of pin) as [p | e] eqn:Hp; simpl.
  - destruct state as [ | b | | | | | ]; simpl;
      try (split; [reflexivity | destruct (send _); simpl; auto]).
    assert (Hq : forall q,
               (forall pin0 state0,
                   Payload pin (JBool b) = Payload pin0 state0 ->
                   int_of pin0 <> Ok q) -> q <> p).
    { intros q H ->. now apply (H pin (JBool b)). }
    destruct (led_get p leds) eqn:Hled; simpl.
    + split.
      * intros q H. apply led_get_set_ne. now apply Hq.
      * destruct (send Success); simpl; [exact I | ].
        exists pin, (JBool b), p, b. repeat split; auto.
        apply led_get_set_eq.
    + destruct (board p) as [e | ]; simpl;
        [split; [reflexivity | exact I] | ].
      split.
      * intros q H. rewrite !led_get_set_ne; auto.
      * destruct (send Success); simpl; [exact I | ].
        exists pin, (JBool b), p, b. repeat split; auto.
        apply led_get_set_eq.
  - destruct e; simpl; try (split; [reflexivity | exact I]).
    split; [reflexivity | ]. destruct (send _); simpl; auto.
Qed.

(** One command of the warning server, on a pin whose LED exists or can be
    created. *)
Lemma do_POST_command (pin : Z) (state : bool) (leds : Leds) :
  board pin = None \/ led_get pin leds <> None ->
  led_get pin (fst (do_POST board send (request_of (pin, state)) leds))
    = Some state /\
  forall q, q <> pin ->
            led_get q
              (fst (do_POST board send (request_of (pin, state)) leds))
            = led_get q leds.
Proof.
  intros H. simpl. destruct (led_get pin leds) eqn:Hled; simpl.
  - split; [apply led_get_set_eq | ].
    intros q Hq. now apply led_get_set_ne.
  - destruct H as [-> | H]; [ | congruence]. simpl.
    split; [apply led_get_set_eq | ].
    intros q Hq. now rewrite !led_get_set_ne.
Qed.

Lemma serve_commands (commands : list (Z * bool)) :
  forall leds,
    (forall c, In c commands -> board (fst c) = None \/ led_get (fst c) leds <> None) ->
    NoDup (map fst commands) ->
    (forall pin state, In (pin, state) commands ->
                       led_get pin (serve board send commands leds)
                       = Some state) /\
    (forall q, ~ In q (map fst commands) ->
               led_get q (serve board send commands leds) = led_get q leds).
Proof.
  unfold serve.
  induction commands as [ | [p s] rest IH]; intros leds Hok Hnd.
  - split; [intros pin state [] | reflexivity].
  - cbn [fold_left]. simpl in Hnd.
    inversion Hnd as [ | ? ? Hnotin Hrest]; subst.
    destruct (do_POST_command p s leds (Hok (p, s) (or_introl eq_refl)))
      as [Hset Hframe].
    set (leds1 := fst (do_POST board send (request_of (p, s)) leds)) in *.
    assert (Hok1 : forall c, In c rest ->
                     board (fst c) = None \/ led_get (fst c) leds1 <> None).
    { intros c Hc. destruct (Hok c (or_intror Hc)) as [H | H]; [now left | ].
      right. destruct (Z.eq_dec (fst c) p) as [-> | Hne].
      - rewrite Hset. discriminate.
      - now rewrite Hframe. }
    destruct (IH leds1 Hok1 Hrest) as [Hdone Hother].
    split.
    + intros pin state [[= -> ->] | Hin].
      * now rewrite (Hother pin Hnotin).
      * now apply Hdone.
    + intros q Hq. simpl in Hq.
      rewrite Hother by (intros H; apply Hq; now right).
      apply Hframe. intros ->. apply Hq. now left.
Qed.

(** ** X20: from zone occupancy to the LEDs, through the GPIO server.

    When [check_zones] has sent all its commands and the GPIO server has
    handled the request of each of them, on a board that has the mapped
    pins, the LED of every mapped zone is lit exactly when no object of
    the registry lists the zone among its light zones; the LEDs of pins
    outside the map are as they were. *)
Theorem check_zones_drives_leds (post : GpioServer) (objects : Registry)
  (leds : Leds) (zone : string) (pin : Z) :
  (forall z p, In (z, p) ZONE_PIN_MAP -> board p = None) ->
  snd (lightsController.check_zones post objects) = None ->
  In (zone, pin) ZONE_PIN_MAP ->
  led_get pin
    (serve board send (fst (lightsController.check_zones post objects)) leds)
    = Some (negb (zone_in zone (penetrated_zones objects))) /\
  (forall q, ~ In q (map snd ZONE_PIN_MAP) ->
             led_get q
               (serve board send
                  (fst (lightsController.check_zones post objects)) leds)
             = led_get q leds).
Proof.
  intros Hboard Hdone Hmap. unfold lightsController.check_zones in *.
  rewrite (check_zones_loop_sent _ _ _ Hdone).
  set (commands := map _ ZONE_PIN_MAP).
  assert (Hpins : map fst commands = map snd ZONE_PIN_MAP)
    by (unfold commands; rewrite map_map; reflexivity).
  destruct (serve_commands commands leds) as [Hset Hframe].
  - intros c Hc. left. unfold commands in Hc.
    apply in_map_iff in Hc as ([z p] & <- & Hin). simpl. eauto.
  - rewrite Hpins. apply ZONE_PIN_MAP_pins.
  - split.
    + apply Hset. unfold commands. apply in_map_iff. exists (zone, pin). auto.
    + intros q Hq. apply Hframe. now rewrite Hpins.
Qed.

Lemma set_all_lights_loop_sent (post : GpioServer) (pins : list Z)
  (state : bool) :
  snd (set_all_lights_loop post pins state) = None ->
  fst (set_all_lights_loop post pins state) = map (fun pin => (pin, state)) pins.
Proof.
  induction pins as [ | pin rest IH]; simpl; [reflexivity | ].
  destruct (lightsController._control_light_pin post pin state); simpl;
    [ | discriminate].
  destruct (set_all_lights_loop post rest state) as [sent e]; simpl in *.
  intros ->. now rewrite IH.
Qed.

Lemma serve_app (commands commands' : list (Z * bool)) (leds : Leds) :
  serve board send (commands ++ commands') leds
    = serve board send commands' (serve board send commands leds).
Proof. unfold serve. apply fold_left_app. Qed.

(** ** X21: the start-up sweep leaves every zone light on.

    When the two sweeps [main] starts with ([set_all_lights(False)], then
    [set_all_lights(True)]) have sent all their commands and the GPIO
    server has handled the requests, on a board that has the mapped pins,
    the LED of every mapped pin is lit, whatever the LEDs were before. *)
Theorem startup_sweep_lights_on (post : GpioServer) (leds : Leds)
  (zone : string) (pin : Z) :
  (forall z p, In (z, p) ZONE_PIN_MAP -> board p = None) ->
  snd (lightsController.set_all_lights post false) = None ->
  snd (lightsController.set_all_lights post true) = None ->
  In (zone, pin) ZONE_PIN_MAP ->
  led_get pin
    (serve board send
       (fst (lightsController.set_all_lights post false)
        ++ fst (lightsController.set_all_lights post true)) leds)
    = Some true.
Proof.
  intros Hboard Hoff Hon Hmap. unfold lightsController.set_all_lights in *.
  rewrite serve_app, (set_all_lights_loop_sent _ _ _ Hon).
  set (leds1 := serve board send _ leds).
  set (commands := map _ (map snd ZONE_PIN_MAP)).
  assert (Hpins : map fst commands = map snd ZONE_PIN_MAP).
  { unfold commands. rewrite map_map. reflexivity. }
  destruct (serve_commands commands leds1) as [Hset _].
  - intros c Hc. left. unfold commands in Hc.
    apply in_map_iff in Hc as (p & <- & Hin).
    apply in_map_iff in Hin as ([z p'] & <- & Hin). simpl. eauto.
  - rewrite Hpins. apply ZONE_PIN_MAP_pins.
  - apply Hset. unfold commands. apply in_map_iff. exists pin.
    split; [reflexivity | ].
    apply in_map_iff. exists (zone, pin). auto.
Qed.

End Lights.

Section Gpiozero.

Import dataProcessing config lightsController awacs_server gpio_control.

(** One step of the gpiozero controller keeps the pins of the dict. *)
Lemma control_light_pin_keys (leds : Leds) (pin : Z) (state : bool) :
  map fst (lightsController_gpiozero._control_light_pin leds pin state)
    = map fst leds.
Proof.
  unfold lightsController_gpiozero._control_light_pin.
  destruct (led_get pin leds) eqn:H; [ | reflexivity].
  induction leds as [ | [p l] rest IH]; simpl in *; [discriminate | ].
  destruct (p =? pin) eqn:E; simpl.
  - apply Z.eqb_eq in E. now subst.
  - now rewrite IH.
Qed.

Lemma led_get_keys (pin : Z) (leds : Leds) :
  led_get pin leds <> None <-> In pin (map fst leds).
Proof.
  induction leds as [ | [p l] rest IH]; simpl; [tauto | ].
  destruct (Z.eqb_spec p pin) as [-> | Hne].
  - split; [now left | discriminate].
  - rewrite IH. tauto.
Qed.

Lemma control_light_pin_get (leds : Leds) (pin q : Z) (state : bool) :
  led_get q (lightsController_gpiozero._control_light_pin leds pin state)
    = if q =? pin
      then match led_get pin leds with Some _ => Some state | None => None end
      else led_get q leds.
Proof.
  unfold lightsController_gpiozero._control_light_pin.
  destruct (Z.eqb_spec q pin) as [-> | Hne].
  - destruct (led_get pin leds) eqn:H; [apply led_get_set_eq | exact H].
  - destruct (led_get pin leds); [now apply led_get_set_ne | reflexivity].
Qed.

(** A sequence of steps of the gpiozero controller on pins that have an
    LED: the last command of a pin decides, the other LEDs stay. *)
Lemma control_light_pins (commands : list (Z * bool)) :
  forall leds,
    map fst
      (fold_left
         (fun leds c =>
            lightsController_gpiozero._control_light_pin leds (fst c) (snd c))
         commands leds) = map fst leds /\
    (NoDup (map fst commands) ->
     forall pin state,
       In (pin, state) commands -> In pin (map fst leds) ->
       led_get pin
         (fold_left
            (fun leds c =>
               lightsController_gpiozero._control_light_pin leds (fst c) (snd c))
            commands leds) = Some state) /\
    (forall q,
        ~ In q (map fst commands) ->
        led_get q
          (fold_left
             (fun leds c =>
                lightsController_gpiozero._control_light_pin leds (fst c) (snd c))
             commands leds) = led_get q leds).
Proof.
  induction commands as [ | [p s] rest IH]; intros leds; cbn [fold_left].
  - split; [reflexivity | ]. split; [intros _ pin state [] | reflexivity].
  - destruct (IH (lightsController_gpiozero._control_light_pin leds p s))
      as (Hkeys & Hset & Hframe).
    cbn [fst snd] in *. rewrite control_light_pin_keys in Hkeys.
    split; [exact Hkeys | ]. split.
    + intros Hnd pin state Hin Hpin. simpl in Hnd.
      inversion Hnd as [ | ? ? Hnotin Hrest]; subst.
      destruct Hin as [[= -> ->] | Hin].
      * rewrite (Hframe pin Hnotin), control_light_pin_get, Z.eqb_refl.
        apply led_get_keys in Hpin. now destruct (led_get pin leds).
      * apply (Hset Hrest); [exact Hin | ].
        now rewrite control_light_pin_keys.
    + intros q Hq. simpl in Hq.
      rewrite Hframe by (intros H; apply Hq; now right).
      rewrite control_light_pin_get.
      destruct (Z.eqb_spec q p) as [-> | _]; [ | reflexivity].
      exfalso. apply Hq. now left.
Qed.

(** ** X22: zone occupancy and the LEDs of the gpiozero controller.

    [check_zones] of the gpiozero controller, on a dict that has an LED
    for the pin of a mapped zone, leaves that LED lit exactly when no
    object of the registry lists the zone among its light zones (the state
    the command of the GPIO-server controller carries).  It creates and
    removes no LED, and leaves the LEDs of pins outside the map as they
    were. *)
Theorem gpiozero_check_zones (leds : Leds) (objects : Registry)
  (zone : string) (pin : Z) :
  In (zone, pin) ZONE_PIN_MAP ->
  In pin (map fst leds) ->
  led_get pin (lightsController_gpiozero.check_zones leds objects)
    = Some (negb (zone_in zone (penetrated_zones objects))) /\
  map fst (lightsController_gpiozero.check_zones leds objects) = map fst leds /\
  (forall q, ~ In q (map snd ZONE_PIN_MAP) ->
             led_get q (lightsController_gpiozero.check_zones leds objects)
             = led_get q leds).
Proof.
  intros Hmap Hpin. unfold lightsController_gpiozero.check_zones.
  set (state := fun z => negb (zone_in z (penetrated_zones objects))).
  set (commands := map (fun zp : string * Z => (snd zp, state (fst zp)))
                     ZONE_PIN_MAP).
  assert (Hfold : forall l,
             fold_left
               (fun leds zp =>
                  lightsController_gpiozero._control_light_pin leds (snd zp)
                    (negb (zone_in (fst zp) (penetrated_zones objects))))
               ZONE_PIN_MAP l
             = fold_left
                 (fun leds c =>
                    lightsController_gpiozero._control_light_pin leds
                      (fst c) (snd c))
                 commands l).
  { intros l. unfold commands. generalize ZONE_PIN_MAP. intros items.
    revert l. induction items as [ | zp rest IH]; intros l; simpl;
      [reflexivity | apply IH]. }
  rewrite Hfold.
  assert (Hpins : map fst commands = map snd ZONE_PIN_MAP)
    by (unfold commands; rewrite map_map; reflexivity).
  destruct (control_light_pins commands leds) as (Hkeys & Hset & Hframe).
  split; [ | split; [exact Hkeys | ]].
  - apply Hset; [rewrite Hpins; apply ZONE_PIN_MAP_pins | | exact Hpin].
    unfold commands. apply in_map_iff. exists (zone, pin). auto.
  - intros q Hq. apply Hframe. now rewrite Hpins.
Qed.

Lemma set_all_lights_fold (state : bool) (pins : list Z) :
  forall leds q,
    map fst
      (fold_left
         (fun leds pin =>
            lightsController_gpiozero._control_light_pin leds pin state)
         pins leds) = map fst leds /\
    (In q pins -> In q (map fst leds) ->
     led_get q
       (fold_left
          (fun leds pin =>
             lightsController_gpiozero._control_light_pin leds pin state)
          pins leds) = Some state) /\
    (~ In q pins ->
     led_get q
       (fold_left
          (fun leds pin =>
             lightsController_gpiozero._control_light_pin leds pin state)
          pins leds) = led_get q leds).
Proof.
  induction pins as [ | p rest IH]; intros leds q; cbn [fold_left].
  - split; [reflexivity | ]. split; [intros [] | reflexivity].
  - destruct (IH (lightsController_gpiozero._control_light_pin leds p state) q)
      as (Hkeys & Hset & Hframe).
    rewrite control_light_pin_keys in Hkeys, Hset.
    split; [exact Hkeys | ]. split.
    + intros Hin Hq.
      destruct (in_dec Z.eq_dec q rest) as [Hrest | Hrest];
        [now apply Hset | ].
      rewrite (Hframe Hrest), control_light_pin_get.
      destruct Hin as [-> | Hin]; [ | contradiction].
      rewrite Z.eqb_refl. apply led_get_keys in Hq.
      now destruct (led_get q leds).
    + intros Hq. simpl in Hq.
      rewrite Hframe by (intros H; apply Hq; now right).
      rewrite control_light_pin_get.
      destruct (Z.eqb_spec q p) as [-> | _]; [ | reflexivity].
      exfalso. apply Hq. now left.
Qed.

(** ** X23: [set_all_lights] of the gpiozero controller.

    [set_all_lights] leaves every LED of the dict in the requested state,
    and the dict with the pins it had. *)
Theorem gpiozero_set_all_lights (leds : Leds) (state : bool) (pin : Z) :
  In pin (map fst leds) ->
  led_get pin (lightsController_gpiozero.set_all_lights leds state)
    = Some state /\
  map fst (lightsController_gpiozero.set_all_lights leds state) = map fst leds.
Proof.
  intros Hin. unfold lightsController_gpiozero.set_all_lights.
  destruct (set_all_lights_fold state (map fst leds) leds pin)
    as (Hkeys & Hset & _).
  split; [now apply Hset | exact Hkeys].
Qed.

End Gpiozero.

(* ===================================================================== *)
(** * The further theorems at concrete inputs *)
(* ===================================================================== *)

Module Instances.

Import PyFloat geometricFunctions dataProcessing config lightsController.
Import awacs_server gpio_control Examples Scenes Outcome Handling Reading.
Local Open Scope string_scope.

(** No heading, angle, distance or speed from an unknown position. *)
Lemma geometry_needs_both_positions_witness :
  calculate_heading plain None (at_ 0 0) = Raise TypeError /\
  (forall h, calculate_angle plain None (at_ 0 0) h = Raise TypeError) /\
  (forall dist, calculate_distance plain None (at_ 0 0) <> Ok dist) /\
  (forall t1 t2 s, calculate_speed plain None t1 (at_ 0 0) t2 <> Ok s).
Proof.
  apply (geometry_needs_both_positions plain None (at_ 0 0)).
  left. exact I.
Defined.

(** [parked], reported at (10, 0) one second later. *)
Lemma update_shape_witness :
  aka driving = aka parked /\
  refreshed driving (tag 1 10 0 (Value 101%float) []) /\
  vct driving = [] /\
  ((retained parked driving /\ spd driving = spd parked /\
    hdg driving = hdg parked) \/
   (his driving = {| his_pos := pos parked; his_tms := tms parked |} /\
    tms driving = _extract_tms (tag 1 10 0 (Value 101%float) []) /\
    (exists x y, pos driving = Some (x, y)) /\
    (exists s, spd driving = Some s))).
Proof.
  apply (update_shape plain parked (tag 1 10 0 (Value 101%float) []) driving).
  reflexivity.
Defined.

Lemma committed_update_heading_witness :
  exists h,
    calculate_heading plain (his_pos (his driving)) (pos driving) = Ok h /\
    hdg driving = Some h.
Proof.
  apply (committed_update_heading plain parked
           (tag 1 10 0 (Value 101%float) []) driving);
    reflexivity.
Defined.

(** [driving], reported at the same place four seconds later. *)
Lemma repeated_position_retained_witness :
  exists obj',
    updateObject plain driving (tag 1 10 0 (Value 105%float) ["LZ1"])
      = Ok obj' /\
    retained driving obj' /\ spd obj' = spd driving /\
    hdg obj' = hdg driving /\
    refreshed obj' (tag 1 10 0 (Value 105%float) ["LZ1"]) /\ vct obj' = [].
Proof.
  apply (repeated_position_retained plain driving
           (tag 1 10 0 (Value 105%float) ["LZ1"]) 10 0);
    reflexivity.
Defined.

(** [parked] is the object of its record, and that record leaves it. *)
Lemma update_after_creation_witness :
  updateObject plain parked (tag 1 0 0 (Value 100%float) []) = Ok parked.
Proof.
  apply (update_after_creation plain 1 (tag 1 0 0 (Value 100%float) []) parked).
  reflexivity.
Defined.

Lemma unlocated_object_never_updated_witness :
  dict_get 1
    (update_objects plain half_located
       (snapshot [tag 2 10 0 (Value 101%float) [];
                  tag 1 5 5 (Value 101%float) []]))
  = Some unlocated.
Proof.
  apply (unlocated_object_never_updated plain half_located).
  - reflexivity.
  - right. exists None. reflexivity.
Defined.

Lemma unreported_object_untouched_witness :
  dict_get 3
    (update_objects plain fleet (snapshot [tag 1 5 5 (Value 101%float) []]))
  = dict_get 3 fleet.
Proof.
  apply (unreported_object_untouched plain fleet).
  intros response t Hf. inversion Hf; subst; clear Hf. simpl.
  intros [<- | []]. discriminate.
Defined.

(** The record of tag 1, which has no position in the registry, between
    two records of tag 2. *)
Lemma update_stops_at_first_failure_witness :
  update_try plain half_located
    (Some {| results :=
               Some ([tag 2 10 0 (Value 101%float) []]
                       ++ tag 1 5 5 (Value 101%float) []
                       :: [tag 2 20 0 (Value 102%float) []])%list |})
  = update_try plain half_located
      (Some {| results :=
                 Some ([tag 2 10 0 (Value 101%float) []]
                         ++ [tag 1 5 5 (Value 101%float) []])%list |}) /\
  snd (update_try plain half_located
         (Some {| results :=
                    Some ([tag 2 10 0 (Value 101%float) []]
                            ++ tag 1 5 5 (Value 101%float) []
                            :: [tag 2 20 0 (Value 102%float) []])%list |}))
  = Some TypeError /\
  forall i,
    tag_id (tag 1 5 5 (Value 101%float) []) <> Value i ->
    dict_get i
      (update_objects plain half_located
         (Some {| results :=
                    Some ([tag 2 10 0 (Value 101%float) []]
                            ++ tag 1 5 5 (Value 101%float) []
                            :: [tag 2 20 0 (Value 102%float) []])%list |}))
    = dict_get i half_moved.
Proof.
  apply (update_stops_at_first_failure plain
           [tag 2 10 0 (Value 101%float) []]
           (tag 1 5 5 (Value 101%float) [])
           [tag 2 20 0 (Value 102%float) []]
           half_located half_moved TypeError);
    reflexivity.
Defined.

Lemma startup_failure_hides_later_records_witness :
  initialize_try (fetched startup) = ([(1, parked)], Some ValueError) /\
  keys (create_vectors plain
          (update_objects plain [(1, parked)] (fetched quiet)))
  = keys [(1, parked)].
Proof.
  apply (startup_failure_hides_later_records plain
           [tag 1 0 0 (Value 100%float) []] (tag_bad_posX 2 5)
           [tag 3 1 1 (Value 100%float) []]
           [(1, parked)] ValueError startup [quiet]);
    reflexivity.
Defined.

Lemma alias_never_changes_witness :
  exists obj',
    dict_get 2 (create_vectors plain
                  (update_objects plain
                     (create_vectors plain
                        (update_objects plain fleet (fetched quiet)))
                     (fetched silent)))
    = Some obj' /\
    aka obj' = aka driving.
Proof.
  apply (alias_never_changes plain [quiet; silent] fleet).
  - reflexivity.
  - reflexivity.
Defined.

Lemma create_vectors_content_witness :
  exists obj,
    dict_get 2 fleet = Some obj /\
    set_vct driving driving_vectors
      = set_vct obj (vct (set_vct driving driving_vectors)) /\
    Forall2 (fun v kv => create_vector plain obj (snd kv) = Ok v)
      (vct (set_vct driving driving_vectors)) (others 2 fleet).
Proof.
  apply (create_vectors_content plain fleet (create_vectors plain fleet)).
  - repeat constructor; simpl; intuition discriminate.
  - reflexivity.
  - reflexivity.
Defined.

Lemma unlocated_object_stops_vectors_witness :
  create_vectors plain half_located = half_located /\
  exists e, snd (create_vectors_try plain half_located) = Some e.
Proof.
  apply (unlocated_object_stops_vectors plain half_located 1 2
           unlocated parked).
  - reflexivity.
  - left. reflexivity.
  - reflexivity.
  - discriminate.
Defined.

Lemma create_vectors_idempotent_witness :
  create_vectors_try plain (create_vectors plain fleet)
  = create_vectors_try plain fleet.
Proof.
  apply (create_vectors_idempotent plain fleet).
  repeat constructor; simpl; intuition discriminate.
Defined.

Lemma pass_without_news_witness :
  cycle plain silent (create_vectors plain fleet)
  = Ok (create_vectors plain fleet).
Proof.
  apply (pass_without_news plain silent fleet).
  - repeat constructor; simpl; intuition discriminate.
  - intros pin state e. discriminate.
  - left. reflexivity.
Defined.

Lemma vector_fields_witness :
  (d (nth 0 driving_vectors {| d := 0; r := 0; f := false |}) = -1 \/
   0 <= d (nth 0 driving_vectors {| d := 0; r := 0; f := false |}) < 360) /\
  (bsz driving <> [] -> bsz parked <> [] ->
   d (nth 0 driving_vectors {| d := 0; r := 0; f := false |}) = -1) /\
  (f (nth 0 driving_vectors {| d := 0; r := 0; f := false |}) = true
   <-> bsz parked <> []) /\
  calculate_distance plain (pos driving) (pos parked)
  = Ok (r (nth 0 driving_vectors {| d := 0; r := 0; f := false |})).
Proof.
  apply (vector_fields plain driving parked).
  reflexivity.
Defined.

(** One object inside LZ1: its light goes out, the other three are lit. *)
Lemma check_zones_drives_leds_witness :
  led_get 2
    (serve board_ok send_ok
       (fst (lightsController.check_zones gpio_ok [(1, in_LZ1)])) [])
  = Some (negb (zone_in "LZ1" (penetrated_zones [(1, in_LZ1)]))) /\
  (forall q, ~ In q (map snd ZONE_PIN_MAP) ->
             led_get q
               (serve board_ok send_ok
                  (fst (lightsController.check_zones gpio_ok [(1, in_LZ1)])) [])
             = led_get q []).
Proof.
  apply (check_zones_drives_leds board_ok send_ok gpio_ok [(1, in_LZ1)] []
           "LZ1" 2).
  - reflexivity.
  - reflexivity.
  - left. reflexivity.
Defined.

Lemma startup_sweep_lights_on_witness :
  led_get 14
    (serve board_ok send_ok
       (fst (lightsController.set_all_lights gpio_ok false)
        ++ fst (lightsController.set_all_lights gpio_ok true))%list [])
  = Some true.
Proof.
  apply (startup_sweep_lights_on board_ok send_ok gpio_ok [] "LZ3" 14).
  - reflexivity.
  - reflexivity.
  - reflexivity.
  - right. right. left. reflexivity.
Defined.

Lemma gpiozero_check_zones_witness :
  led_get 2
    (lightsController_gpiozero.check_zones lightsController_gpiozero.leds
       [(1, in_LZ1)])
  = Some (negb (zone_in "LZ1" (penetrated_zones [(1, in_LZ1)]))) /\
  map fst
    (lightsController_gpiozero.check_zones lightsController_gpiozero.leds
       [(1, in_LZ1)])
  = map fst lightsController_gpiozero.leds /\
  (forall q, ~ In q (map snd ZONE_PIN_MAP) ->
             led_get q
               (lightsController_gpiozero.check_zones
                  lightsController_gpiozero.leds [(1, in_LZ1)])
             = led_get q lightsController_gpiozero.leds).
Proof.
  apply (gpiozero_check_zones lightsController_gpiozero.leds [(1, in_LZ1)]
           "LZ1" 2).
  - left. reflexivity.
  - left. reflexivity.
Defined.

Lemma gpiozero_set_all_lights_witness :
  led_get 14
    (lightsController_gpiozero.set_all_lights lightsController_gpiozero.leds
       true)
  = Some true /\
  map fst
    (lightsController_gpiozero.set_all_lights lightsController_gpiozero.leds
       true)
  = map fst lightsController_gpiozero.leds.
Proof.
  apply (gpiozero_set_all_lights lightsController_gpiozero.leds true 14).
  right. right. left. reflexivity.
Defined.

End Instances.
